(** * Stock ChartBot v0.2: support/resistance levels over the extended session

    A shallow embedding of the computational core of [Stock_ChartBot_v0.2.py]:
    the extended-hours window ([get_extended_period]), the window filter of
    [get_extended_data], OHLCV resampling ([resample_data]), local-extrema
    detection ([find_support_resistance]) and the per-symbol / batch drivers
    ([generate_chart_for_symbol], [generate_charts]).

    Conventions.
    - A price is a finite float in the program.  The core only compares
      prices and takes maxima and minima, so a price is represented by an
      integer number of ticks ([Z]); a volume is an integer, and the sum
      of an [int64] column wraps around ([wrap64]).  NaN, which pandas
      produces for an empty bucket, is [None].
    - An instant is a number of seconds since the epoch ([Z]).
    - The index of a frame is increasing, as the provider delivers it and
      as the window filter keeps it; the results on ['first'] and ['last']
      of a bucket are stated for such frames.
    - A Python exception is a value of [Exn]; a function that may raise
      returns [Result A = Exn + A].
    - The drivers are followed on the runs in which the provider's frame
      has its five columns once [fix_data_columns] has run and in which
      matplotlib draws and saves the figure; the debug lines of the log
      are left out, except for the one of [get_extended_period]. *)

From stdpp Require Import base list sorting strings gmap.

Set Warnings "-clear-no-such-hyp".

Open Scope Z_scope.

(** ** Exceptions *)

(** [DownloadError] stands for whatever the data provider raises. *)
Inductive Exn : Type :=
  | ValueError (msg : string)
  | KeyError (key : string)
  | DownloadError (msg : string).

Definition Result : Type → Type := sum Exn.

Global Instance result_ret : MRet Result := λ A a, inr a.
Global Instance result_bind : MBind Result := λ A B k m,
  match m with
  | inl e => inl e
  | inr a => k a
  end.

(** ** Data model *)

(** One row of the OHLCV frame; [Timestamp] is the index value. *)
Record Bar : Type := mkBar {
  Timestamp : Z;
  Open : Z;
  High : Z;
  Low : Z;
  Close : Z;
  Volume : Z
}.

(** A [DataFrame] is the list of its rows in index order; [data.empty] is
    [data = []]. *)
Abbreviation DataFrame := (list Bar).

Definition len {A} (l : list A) : Z := Z.of_nat (length l).

(** Selection by a boolean mask, as numpy and pandas do it: the entries of
    [l] whose mask entry is [True], in their order. *)
Definition select {A} (l : list A) (mask : list bool) : list A :=
  fst <$> filter (λ p, p.2 = true) (zip l mask).

(** ** Local extrema ([scipy.signal.argrelextrema], default [mode='clip']) *)

Module Extrema.

(** [data.take(i, mode='clip')]: an index below 0 reads element 0, an
    index past the end reads the last element. *)
Definition clip (n i : Z) : Z := Z.max 0 (Z.min i (n - 1)).

Definition take_clip (data : list Z) (i : Z) : Z :=
  data !!! Z.to_nat (clip (len data) i).

Definition np_less (a b : Z) : bool := bool_decide (a < b).
Definition np_greater (a b : Z) : bool := bool_decide (a > b).

(** One iteration of the loop over [shift]: both neighbours at distance
    [shift] are compared with the element itself, for all positions at
    once. *)
Definition relextrema_step (comparator : Z → Z → bool) (data : list Z)
    (locs main : list Z) (results : list bool) (shift : Z) : list bool :=
  let plus := (λ l, take_clip data (l + shift)) <$> locs in
  let minus := (λ l, take_clip data (l - shift)) <$> locs in
  let results := zip_with andb results (zip_with comparator main plus) in
  zip_with andb results (zip_with comparator main minus).

(** [for shift in range(1, order + 1)], with the early exit taken as soon
    as no position is left. *)
Fixpoint relextrema_loop (comparator : Z → Z → bool) (data : list Z)
    (locs main : list Z) (shifts : list Z) (results : list bool)
    : list bool :=
  match shifts with
  | [] => results
  | shift :: shifts' =>
      let results := relextrema_step comparator data locs main results shift in
      if negb (existsb id results) then results
      else relextrema_loop comparator data locs main shifts' results
  end.

Definition boolrelextrema (data : list Z) (comparator : Z → Z → bool)
    (order : Z) : Result (list bool) :=
  if bool_decide (order < 1) then
    inl (ValueError "Order must be an int >= 1")
  else
    let datalen := len data in
    let locs := seqZ 0 datalen in
    let results := replicate (length data) true in
    let main := take_clip data <$> locs in
    inr (relextrema_loop comparator data locs main (seqZ 1 order) results).

(** [np.nonzero(results)[0]]: the positions holding [True], ascending. *)
Definition nonzero (results : list bool) : list Z :=
  select (seqZ 0 (len results)) results.

Definition argrelextrema (data : list Z) (comparator : Z → Z → bool)
    (order : Z) : Result (list Z) :=
  results ← boolrelextrema data comparator order;
  inr (nonzero results).

End Extrema.

(** [supports_idx] and [resistances_idx] of [find_support_resistance]. *)
Definition supports_idx (close_prices : list Z) (order : Z) : Result (list Z) :=
  Extrema.argrelextrema close_prices Extrema.np_less order.

Definition resistances_idx (close_prices : list Z) (order : Z) : Result (list Z) :=
  Extrema.argrelextrema close_prices Extrema.np_greater order.

Definition find_support_resistance (data : DataFrame) (order : Z)
    : Result (list Z * list Z) :=
  match data with
  | [] => inr ([], [])
  | _ :: _ =>
      let close_prices := Close <$> data in
      if bool_decide (len close_prices < order * 2 + 1) then
        let level := close_prices !!! 0%nat in
        inr ([level], [level])
      else
        supports_idx ← supports_idx close_prices order;
        resistances_idx ← resistances_idx close_prices order;
        let supports := (λ i, close_prices !!! Z.to_nat i) <$> supports_idx in
        let resistances := (λ i, close_prices !!! Z.to_nat i) <$> resistances_idx in
        inr (supports, resistances)
  end.

(** ** The extended-hours window *)

(** An aware [datetime]: the wall-clock reading, in seconds since the epoch
    of the local calendar, and the UTC offset in force. *)
Record DateTime : Type := mkDateTime {
  wall : Z;
  utcoffset : Z
}.

(** The instant an aware datetime denotes; aware datetimes are compared by
    their instants. *)
Definition instant (d : DateTime) : Z := wall d - utcoffset d.

(** [d.date()], as a day number of the local calendar, and [d.time()], in
    seconds after midnight. *)
Definition date (d : DateTime) : Z := wall d `div` 86400.

(** [datetime.combine(day, dtime(hour, minute))], a naive wall-clock time. *)
Definition combine (day hour minute : Z) : Z :=
  day * 86400 + hour * 3600 + minute * 60.

(** A [pytz] zone, as used by [localize]: the UTC offset the zone assigns to
    a naive wall-clock time. *)
Abbreviation TimeZone := (Z → Z).

Definition localize (tz : TimeZone) (naive : Z) : DateTime :=
  mkDateTime naive (tz naive).

Definition get_extended_period (eastern : TimeZone) (now : DateTime)
    : DateTime * DateTime :=
  let today := date now in
  let extended_start := localize eastern (combine (today - 1) 18 0) in
  let extended_end := localize eastern (combine today 9 0) in
  (extended_start, extended_end).




(** Every offset US/Eastern has ever had lies between UTC-5 and UTC-4. *)
Definition us_eastern_offsets (tz : TimeZone) : Prop :=
  ∀ w, -18000 ≤ tz w ≤ -14400.

(** US/Eastern during 2025: daylight time from 9 March 03:00 to 2 November
    01:00 (wall clock), standard time otherwise. *)
Definition eastern_2025 : TimeZone := λ w,
  if bool_decide (combine 20156 3 0 ≤ w < combine 20394 1 0) then -14400
  else -18000.

(** ** External collaborators and configuration *)

(** The bins [DataFrame.resample(rule)] lays over the index: which bin an
    instant falls in (bins are numbered consecutively in time) and the left
    edge that labels a bin. *)
Record Grid : Type := mkGrid {
  bin_of : Z → Z;
  left_edge : Z → Z
}.

(** A grid is a partition of time into consecutive intervals. *)
Record grid_ok (g : Grid) : Prop := {
  bin_of_mono : ∀ t t', t ≤ t' → bin_of g t ≤ bin_of g t';
  left_edge_mono : ∀ k k', k < k' → left_edge g k < left_edge g k'
}.

(** Bins of a fixed [width] counted from the instant [anchor]. *)
Definition anchored_grid (anchor width : Z) : Grid :=
  mkGrid (λ t, (t - anchor) `div` width) (λ k, anchor + k * width).

Record Env : Type := mkEnv {
  (** [pytz.timezone('US/Eastern')] *)
  eastern : TimeZone;
  (** [datetime.now(eastern)], as read while [symbol] is processed *)
  clock : string → DateTime;
  (** [yf.download(symbol, period='2d', interval='30m', prepost=True)],
      with the columns and the index already put in canonical form
      ([fix_data_columns], [tz_convert]) *)
  download : string → Result DataFrame;
  (** the bins of [data.resample(rule)] *)
  grid : string → Grid
}.

Record Config : Type := mkConfig {
  FUTURES : list string;
  STOCKS : list string;
  TIMEFRAMES : list string
}.


(** ** The window filter of [get_extended_data] *)

Definition index_ge (index : list Z) (t : DateTime) : list bool :=
  (λ x, bool_decide (x >= instant t)) <$> index.

Definition index_le (index : list Z) (t : DateTime) : list bool :=
  (λ x, bool_decide (x <= instant t)) <$> index.

(** [data[mask]]: the rows whose mask entry is [True], in order. *)
Definition boolean_index (data : DataFrame) (mask : list bool) : DataFrame :=
  select data mask.

Definition window_filter (data : DataFrame) (extended_start extended_end : DateTime)
    : DataFrame :=
  let index := Timestamp <$> data in
  boolean_index data
    (zip_with andb (index_ge index extended_start) (index_le index extended_end)).

(** [download] stands for [yf.download] followed by the first
    [fix_data_columns] and the conversion of the index; the second
    [fix_data_columns], on the filtered frame, finds the five columns in
    place and changes nothing ([fix_data_columns] itself is modelled
    further down, on the column names). *)
Definition get_extended_data (env : Env) (symbol : string)
    : Result (DataFrame * DateTime * DateTime) :=
  let now := clock env symbol in
  let '(extended_start, extended_end) := get_extended_period (eastern env) now in
  data ← download env symbol;
  match data with
  | [] => inr (data, extended_start, extended_end)
  | _ :: _ =>
      let extended_data := window_filter data extended_start extended_end in
      inr (extended_data, extended_start, extended_end)
  end.

(** ** Resampling ([data.resample(rule).agg({...}).dropna()]) *)

(** A row of the aggregated frame before [dropna]; a price cell may be NaN. *)
Record Row : Type := mkRow {
  row_index : Z;
  row_Open : option Z;
  row_High : option Z;
  row_Low : option Z;
  row_Close : option Z;
  row_Volume : Z
}.

Definition agg_first (xs : list Z) : option Z := head xs.
Definition agg_last (xs : list Z) : option Z := last xs.

Definition agg_max (xs : list Z) : option Z :=
  match xs with
  | [] => None
  | x :: xs' => Some (foldl Z.max x xs')
  end.

Definition agg_min (xs : list Z) : option Z :=
  match xs with
  | [] => None
  | x :: xs' => Some (foldl Z.min x xs')
  end.

(** What an [int64] holds after additions that overflow: the exact sum
    brought back into the range from [-2^63] to [2^63 - 1]. *)
Definition wrap64 (z : Z) : Z := (z + 2 ^ 63) `mod` 2 ^ 64 - 2 ^ 63.

(** ['sum'] over the [int64] Volume column, with its wrap-around. *)
Definition agg_sum (xs : list Z) : Z := wrap64 (foldr Z.add 0 xs).

(** The rows of [data] that fall in bin [k]. *)
Definition bucket (g : Grid) (data : DataFrame) (k : Z) : list Bar :=
  filter (λ b, bin_of g (Timestamp b) = k) data.

(** The bins [data.resample(rule)] creates: all of them from the bin of the
    smallest index value to the bin of the largest. *)
Definition bin_range (g : Grid) (data : DataFrame) : list Z :=
  match Timestamp <$> data with
  | [] => []
  | t :: ts =>
      let first := foldl Z.min t ts in
      let last := foldl Z.max t ts in
      seqZ (bin_of g first) (bin_of g last - bin_of g first + 1)
  end.

(** The groups of [data.resample(rule)]: one per bin, empty bins included.
    The rows of a group are in the order of [data]: pandas sorts a frame
    whose index is not increasing before it bins it, so ['first'] and
    ['last'] below are those of the program on frames with an increasing
    index, and the results on them assume one. *)
Definition resample (g : Grid) (data : DataFrame) : list (Z * list Bar) :=
  (λ k, (k, bucket g data k)) <$> bin_range g data.

Definition agg_row (g : Grid) (group : Z * list Bar) : Row :=
  let '(k, bars) := group in
  mkRow (left_edge g k)
        (agg_first (Open <$> bars))
        (agg_max (High <$> bars))
        (agg_min (Low <$> bars))
        (agg_last (Close <$> bars))
        (agg_sum (Volume <$> bars)).

Definition agg (g : Grid) (groups : list (Z * list Bar)) : list Row :=
  agg_row g <$> groups.

(** [dropna] of one row: kept only when no cell is NaN. *)
Definition notna (r : Row) : option Bar :=
  o ← row_Open r;
  h ← row_High r;
  l ← row_Low r;
  c ← row_Close r;
  Some (mkBar (row_index r) o h l c (row_Volume r)).

Definition dropna (rows : list Row) : DataFrame := omap notna rows.

Definition resample_data (env : Env) (data : DataFrame) (timeframe : string)
    : Result DataFrame :=
  let resampled rule := dropna (agg (grid env rule) (resample (grid env rule) data)) in
  if bool_decide (timeframe = "1d") then inr (resampled "1D")
  else if bool_decide (timeframe = "4h") then inr (resampled "4h")
  else if bool_decide (timeframe = "30m") then inr data
  else inl (ValueError ("Unsupported timeframe: " +:+ timeframe)).

(** ** Charts *)

(** A horizontal line of the figure. *)
Record Line : Type := mkLine {
  line_y : Z;
  line_color : string;
  line_dashed : bool
}.

Record Figure : Type := mkFigure {
  price_action : list (Z * Z);
  high_line : option Z;
  low_line : option Z;
  level_lines : list Line
}.

Definition color_map : gmap string string :=
  <["1d" := "red"]> (<["4h" := "blue"]> (<["30m" := "orange"]> ∅)).

Definition order_map : gmap string Z :=
  <["1d" := 1]> (<["4h" := 2]> (<["30m" := 3]> ∅)).

(** [color_map[tf]] *)
Definition color_of (tf : string) : Result string :=
  match color_map !! tf with
  | Some c => inr c
  | None => inl (KeyError tf)
  end.

(** [for level in levels: ax.axhline(y=level, color=color_map[tf], ...)] *)
Fixpoint draw_levels (tf : string) (dashed : bool) (levels : list Z)
    (lines : list Line) : Result (list Line) :=
  match levels with
  | [] => inr lines
  | level :: levels' =>
      color ← color_of tf;
      draw_levels tf dashed levels' (lines ++ [mkLine level color dashed])
  end.

(** The loop over [TIMEFRAMES] in [plot_extended_chart]. *)
Fixpoint plot_loop (env : Env) (extended_data : DataFrame) (tfs : list string)
    (lines : list Line) : Result (list Line) :=
  match tfs with
  | [] => inr lines
  | tf :: tfs' =>
      resampled ← resample_data env extended_data tf;
      let order := default 3 (order_map !! tf) in
      '(supports, resistances) ← find_support_resistance resampled order;
      lines ← draw_levels tf false supports lines;
      lines ← draw_levels tf true resistances lines;
      plot_loop env extended_data tfs' lines
  end.

Definition plot_extended_chart (env : Env) (cfg : Config)
    (extended_data : DataFrame) (extended_high extended_low : option Z)
    : Result Figure :=
  lines ← plot_loop env extended_data (TIMEFRAMES cfg) [];
  inr (mkFigure ((λ b, (Timestamp b, Close b)) <$> extended_data)
                extended_high extended_low lines).

(** ** Per-symbol and batch drivers *)

(** What a run leaves behind: for each symbol either the debug line that it
    was skipped, the chart that was saved, or the error line of the handler
    in [generate_charts]. *)
Inductive Event : Type :=
  | NoExtendedData (display_symbol : string)
  | ChartSaved (display_symbol : string)
               (support_res_levels : gmap string (list Z * list Z))
               (fig : Figure)
  | ErrorLogged (display_symbol : string) (e : Exn).

Abbreviation World := (list Event).

(** The loop over [TIMEFRAMES] in [generate_chart_for_symbol]. *)
Fixpoint levels_loop (env : Env) (extended_data : DataFrame) (tfs : list string)
    (support_res_levels : gmap string (list Z * list Z))
    : Result (gmap string (list Z * list Z)) :=
  match tfs with
  | [] => inr support_res_levels
  | tf :: tfs' =>
      resampled ← resample_data env extended_data tf;
      let order := if bool_decide (tf = "1d") then 1
                   else if bool_decide (tf = "4h") then 2 else 3 in
      '(supports, resistances) ← find_support_resistance resampled order;
      levels_loop env extended_data tfs'
        (<[tf := (supports, resistances)]> support_res_levels)
  end.

(** The frame of the model always has its five columns, so the [KeyError]
    handler around [extended_high] and [extended_low] is never entered; and
    drawing and [fig.savefig] return, so the only exceptions are those of
    the download, of [resample_data] and of [find_support_resistance].  A
    run in which matplotlib or the file system raises is outside the
    model. *)
Definition generate_chart_for_symbol (env : Env) (cfg : Config)
    (symbol display_symbol : string) (w : World) : Result () * World :=
  match get_extended_data env symbol with
  | inl e => (inl e, w)
  | inr (extended_data, extended_start, extended_end) =>
      match extended_data with
      | [] => (inr (), w ++ [NoExtendedData display_symbol])
      | _ :: _ =>
          let extended_high := agg_max (High <$> extended_data) in
          let extended_low := agg_min (Low <$> extended_data) in
          let chart :=
            support_res_levels ← levels_loop env extended_data (TIMEFRAMES cfg) ∅;
            fig ← plot_extended_chart env cfg extended_data extended_high extended_low;
            inr (support_res_levels, fig) in
          match chart with
          | inl e => (inl e, w)
          | inr (support_res_levels, fig) =>
              (inr (), w ++ [ChartSaved display_symbol support_res_levels fig])
          end
      end
  end.

(** [try: generate_chart_for_symbol(symbol, display_symbol)
    except Exception as e: logger.error(...)] *)
Definition attempt (env : Env) (cfg : Config) (symbol display_symbol : string)
    (w : World) : World :=
  match generate_chart_for_symbol env cfg symbol display_symbol w with
  | (inr _, w') => w'
  | (inl e, w') => w' ++ [ErrorLogged display_symbol e]
  end.

Fixpoint for_symbols (env : Env) (cfg : Config) (display : string → string)
    (symbols : list string) (w : World) : World :=
  match symbols with
  | [] => w
  | symbol :: symbols' =>
      let display_symbol := display symbol in
      let w := attempt env cfg symbol display_symbol w in
      for_symbols env cfg display symbols' w
  end.

Definition futures_display (symbol : string) : string :=
  if bool_decide (symbol = "ES=F") then "ES" else "NQ".

Definition generate_charts (env : Env) (cfg : Config) (w : World) : World :=
  let w := for_symbols env cfg futures_display (FUTURES cfg) w in
  for_symbols env cfg (λ symbol, symbol) (STOCKS cfg) w.

(** ** Example data *)

(** Midnight of 8 March 2025 in US/Eastern (05:00 UTC), as an instant. *)
Definition example_midnight : Z := combine 20155 0 0 + 18000.

(** An environment for examples: the clock reads 08:00 on 9 March 2025
    (day 20156), so that the window runs from 8 March 18:00 EST to 9 March
    09:00 EDT; [frames] stands for the data provider.  The bins are days
    and four-hour blocks counted from local midnight of 8 March, which is
    where pandas puts them for a US/Eastern frame that starts on 8 March
    and ends before 10 March, as every frame of the examples does. *)
Definition example_env (frames : string → Result DataFrame) : Env :=
  mkEnv eastern_2025
        (λ _, mkDateTime (combine 20156 8 0) (-14400))
        frames
        (λ rule, anchored_grid example_midnight
                   (if bool_decide (rule = "1D") then 86400 else 14400)).

(** The two ends of that window, as instants. *)
Definition example_start : Z := combine 20155 18 0 + 18000.
Definition example_end : Z := combine 20156 9 0 + 14400.

(** Closes-only frames, for examples. *)
Definition bar_of_close (t c : Z) : Bar := mkBar t c c c c 0.

Definition frame_of_closes (closes : list Z) : DataFrame :=
  zip_with bar_of_close (seqZ 0 (len closes)) closes.

(** ** Specification predicates *)

(** The element at [i] compares strictly, by [R], with every other element
    whose position lies within [order] of [i] and inside the array. *)
Definition beats_neighbours (R : Z → Z → Prop) (a : list Z) (order i : Z) : Prop :=
  ∀ j, i - order ≤ j ≤ i + order → 0 ≤ j < len a → j ≠ i →
       R (a !!! Z.to_nat i) (a !!! Z.to_nat j).

(** What [argrelextrema] reports: any position but the first and the last
    whose element beats its neighbours in the window cut at the array's
    ends. *)
Definition clipped_extremum (R : Z → Z → Prop) (a : list Z) (order i : Z) : Prop :=
  1 ≤ i ≤ len a - 2 ∧ beats_neighbours R a order i.

(** The reading that restricts candidates to positions with a full window. *)
Definition interior_extremum (R : Z → Z → Prop) (a : list Z) (order i : Z) : Prop :=
  order ≤ i < len a - order ∧ beats_neighbours R a order i.

(** The two comparisons [argrelextrema] makes for position [i] at distance
    [shift]. *)
Definition probe (comparator : Z → Z → bool) (data : list Z) (i : nat) (shift : Z)
    : bool :=
  comparator (Extrema.take_clip data (Z.of_nat i))
             (Extrema.take_clip data (Z.of_nat i + shift))
  && comparator (Extrema.take_clip data (Z.of_nat i))
                (Extrema.take_clip data (Z.of_nat i - shift)).

(** The index of a frame is strictly increasing. *)
Definition index_increasing (data : DataFrame) : Prop :=
  StronglySorted Z.lt (Timestamp <$> data).

(** [o] carries the OHLCV aggregate of the rows [bars]: the open of the
    earliest row, the largest high, the smallest low, the close of the
    latest row and the total volume as an [int64] holds it. *)
Record aggregates (bars : list Bar) (o : Bar) : Prop := {
  agg_open : ∃ b, b ∈ bars ∧ (∀ b', b' ∈ bars → Timestamp b ≤ Timestamp b')
                  ∧ Open o = Open b;
  agg_high : (∃ b, b ∈ bars ∧ High o = High b) ∧ ∀ b, b ∈ bars → High b ≤ High o;
  agg_low : (∃ b, b ∈ bars ∧ Low o = Low b) ∧ ∀ b, b ∈ bars → Low o ≤ Low b;
  agg_close : ∃ b, b ∈ bars ∧ (∀ b', b' ∈ bars → Timestamp b' ≤ Timestamp b)
                   ∧ Close o = Close b;
  agg_volume : Volume o = wrap64 (foldr (λ b total, Volume b + total) 0 bars)
}.

(** The offset alias [resample_data] passes to [data.resample]. *)
Definition rule_of (timeframe rule : string) : Prop :=
  (timeframe = "1d" ∧ rule = "1D") ∨ (timeframe = "4h" ∧ rule = "4h").

(** The timeframes [resample_data] knows. *)
Definition recognized (timeframe : string) : Prop :=
  timeframe ∈ ["1d"; "4h"; "30m"].

(** ** Column normalisation ([fix_data_columns]) *)

(** The column labels of a frame: a flat index of names, or a [MultiIndex]
    whose labels have at least two levels (the first level, the second
    level, the remaining ones). *)
Inductive Columns : Type :=
  | Index (names : list string)
  | MultiIndex (labels : list (string * string * list string)).

Definition expected : list string := ["Open"; "High"; "Low"; "Close"; "Volume"].

(** [columns.get_level_values(1)] *)
Definition get_level_values_1 (labels : list (string * string * list string))
    : list string :=
  (λ label, label.1.2) <$> labels.

(** [str.lower], on the ASCII letters. *)
Definition lower_ascii (c : Ascii.ascii) : Ascii.ascii :=
  let n := Ascii.nat_of_ascii c in
  if bool_decide (65 ≤ n ≤ 90)%nat then Ascii.ascii_of_nat (n + 32) else c.

Fixpoint lower (s : string) : string :=
  match s with
  | EmptyString => EmptyString
  | String c s' => String (lower_ascii c) (lower s')
  end.

(** [data.rename(columns={old: new}, inplace=True)]: every column called
    [old] is now called [new]. *)
Definition rename (old new : string) (columns : list string) : list string :=
  (λ c, if bool_decide (c = old) then new else c) <$> columns.

(** The body of [for col in expected]. *)
Definition fix_column (columns : list string) (col : string) : list string :=
  if bool_decide (col ∈ columns) then columns
  else
    let lower := lower col in
    if bool_decide (lower ∈ columns) then rename lower col columns
    else if bool_decide (col = "Close") && bool_decide ("Adj Close" ∈ columns)
    then rename "Adj Close" "Close" columns
    else columns.

(** The function on the labels of its argument; the cells of the frame are
    not touched.  Assigning five names to a frame that does not have five
    columns makes pandas raise [ValueError("Length mismatch: ...")], of
    which the message is cut short here. *)
Definition fix_data_columns (data_columns : Columns) : Result (list string) :=
  let columns :=
    match data_columns with
    | MultiIndex labels => get_level_values_1 labels
    | Index names => names
    end in
  if bool_decide (size (list_to_set columns : gset string) = 1%nat) then
    if bool_decide (length columns = length expected) then inr expected
    else inl (ValueError "Length mismatch")
  else inr (foldl fix_column columns expected).

(** The names [fix_data_columns] works on: the labels themselves, or the
    second level of a [MultiIndex]. *)
Definition flat_names (data_columns : Columns) : list string :=
  match data_columns with
  | MultiIndex labels => get_level_values_1 labels
  | Index names => names
  end.

(** A name [fix_data_columns] can turn into [col]: [col] itself, its
    lower-case form, or ['Adj Close'] for ['Close']. *)
Definition stands_for (columns : list string) (col : string) : Prop :=
  col ∈ columns ∨ lower col ∈ columns ∨ (col = "Close" ∧ "Adj Close" ∈ columns).

(** Nothing is left to do for [col]: it is there, or nothing stands for
    it. *)
Definition settled (columns : list string) (col : string) : Prop :=
  col ∈ columns
  ∨ ((lower col ∉ columns) ∧ (col = "Close" → "Adj Close" ∉ columns)).

(** ** Levels of one timeframe *)

(** The [order] that [generate_chart_for_symbol] picks for a timeframe. *)
Definition order_of (tf : string) : Z :=
  if bool_decide (tf = "1d") then 1 else if bool_decide (tf = "4h") then 2 else 3.

(** The levels of one timeframe: resample, then detect. *)
Definition levels_of (env : Env) (extended_data : DataFrame) (tf : string)
    : Result (list Z * list Z) :=
  resampled ← resample_data env extended_data tf;
  find_support_resistance resampled (order_of tf).

(** The lines a pair of level lists stands for in the figure: the supports
    solid, then the resistances dashed, in the colour of the timeframe. *)
Definition lines_of (tf : string) (levels : list Z * list Z) : list Line :=
  match color_map !! tf with
  | Some color =>
      ((λ y, mkLine y color false) <$> levels.1)
      ++ ((λ y, mkLine y color true) <$> levels.2)
  | None => []
  end.

(** A bar whose open and close lie between its low and its high. *)
Definition well_formed (b : Bar) : Prop :=
  Low b ≤ Open b ≤ High b ∧ Low b ≤ Close b ≤ High b.

(** The symbol an event is about. *)
Definition event_symbol (ev : Event) : string :=
  match ev with
  | NoExtendedData display_symbol => display_symbol
  | ChartSaved display_symbol _ _ => display_symbol
  | ErrorLogged display_symbol _ => display_symbol
  end.

(** The total volume of a frame. *)
Definition total_volume (data : DataFrame) : Z :=
  foldr (λ b total, Volume b + total) 0 data.

(** The sum of [f] over a list. *)
Definition sum_over {A} (f : A → Z) (l : list A) : Z :=
  foldr (λ x total, f x + total) 0 l.

(** A grid of days: two instants at most sixteen hours apart fall in the
    same bin or in two consecutive bins. *)
Definition daily (g : Grid) : Prop :=
  ∀ t t', t ≤ t' → t' - t ≤ 16 * 3600 → bin_of g t' ≤ bin_of g t + 1.

(** Column [i], once called [x], keeps its name or carries the expected
    name [x] stood for. *)
Definition kept_or_restored (x : string) (now : option string) : Prop :=
  now = Some x
  ∨ ∃ col, col ∈ expected ∧ now = Some col
           ∧ (x = lower col ∨ (col = "Close" ∧ x = "Adj Close")).

(** The frame with every close replaced by its image under [f]. *)
Definition map_close (f : Z → Z) (data : DataFrame) : DataFrame :=
  (λ b, mkBar (Timestamp b) (Open b) (High b) (Low b) (f (Close b)) (Volume b))
    <$> data.

(** The image of a result of [find_support_resistance] under [f], with the
    two lists exchanged when [swap] is set. *)
Definition map_levels (f : Z → Z) (swap : bool) (r : Result (list Z * list Z))
    : Result (list Z * list Z) :=
  match r with
  | inl e => inl e
  | inr (supports, resistances) =>
      if swap then inr (f <$> resistances, f <$> supports)
      else inr (f <$> supports, f <$> resistances)
  end.

(** The labels of a grid lie in the bins they name. *)
Definition labels_in_bins (g : Grid) : Prop :=
  ∀ k, bin_of g (left_edge g k) = k.

(** Rows labelled with the left edge of their own bin, one per bin, in
    ascending order of bins, with volumes an [int64] holds: what a
    resampled frame looks like. *)
Definition tidy (g : Grid) (rows : DataFrame) : Prop :=
  (∀ o, o ∈ rows → Timestamp o = left_edge g (bin_of g (Timestamp o)))
  ∧ StronglySorted Z.lt ((λ o, bin_of g (Timestamp o)) <$> rows)
  ∧ (∀ o, o ∈ rows → - 2 ^ 63 ≤ Volume o < 2 ^ 63).

(** * Properties *)

(** ** Local extrema *)

Section ExtremaFacts.
Import Extrema.

Variable comparator : Z → Z → bool.
Variable data : list Z.

Let locs := seqZ 0 (len data).
Let main := take_clip data <$> locs.

Lemma relextrema_step_length results shift :
  length results = length data →
  length (relextrema_step comparator data locs main results shift) = length data.
Proof.
  intros Hlen. unfold relextrema_step, main, locs.
  rewrite !length_zip_with, !length_fmap, !length_seqZ, Hlen. unfold len. lia.
Qed.

Lemma relextrema_step_lookup results shift i b :
  (i < length data)%nat →
  results !! i = Some b →
  relextrema_step comparator data locs main results shift !! i
  = Some (b && probe comparator data i shift).
Proof.
  intros Hi Hb. unfold relextrema_step, main, locs, probe.
  assert (Hloc : seqZ 0 (len data) !! i = Some (Z.of_nat i)).
  { rewrite lookup_seqZ_lt by (unfold len; lia). done. }
  rewrite !lookup_zip_with, !list_lookup_fmap, Hb, Hloc. simpl.
  by rewrite andb_assoc.
Qed.

Lemma existsb_id_false (l : list bool) i b :
  existsb id l = false → l !! i = Some b → b = false.
Proof.
  revert i. induction l as [|x l IH]; intros i; [done|].
  simpl. intros [Hx Hl]%orb_false_iff. destruct i; simpl.
  - intros [= <-]. done.
  - eauto.
Qed.

Lemma relextrema_loop_length shifts results :
  length results = length data →
  length (relextrema_loop comparator data locs main shifts results) = length data.
Proof.
  revert results. induction shifts as [|s shifts IH]; intros results Hlen; [done|].
  simpl. destruct (negb _); [|apply IH]; by apply relextrema_step_length.
Qed.

Lemma relextrema_loop_lookup shifts results i b :
  (i < length data)%nat →
  results !! i = Some b →
  relextrema_loop comparator data locs main shifts results !! i
  = Some (b && forallb (probe comparator data i) shifts).
Proof.
  revert results b. induction shifts as [|s shifts IH]; intros results b Hi Hb.
  { simpl. by rewrite andb_true_r. }
  simpl. pose proof (relextrema_step_lookup results s i b Hi Hb) as Hstep.
  destruct (negb _) eqn:Hany.
  - apply negb_true_iff in Hany.
    pose proof (existsb_id_false _ _ _ Hany Hstep) as Hfalse.
    rewrite Hstep. f_equal. rewrite andb_assoc, Hfalse. done.
  - rewrite (IH _ _ Hi Hstep). by rewrite andb_assoc.
Qed.

Lemma boolrelextrema_inr order :
  1 ≤ order →
  ∃ results, boolrelextrema data comparator order = inr results
    ∧ length results = length data
    ∧ ∀ i, (i < length data)%nat →
           results !! i = Some (forallb (probe comparator data i) (seqZ 1 order)).
Proof.
  intros Ho. unfold boolrelextrema. rewrite bool_decide_eq_false_2 by lia.
  eexists. split; [done|]. split.
  - apply relextrema_loop_length. by rewrite length_replicate.
  - intros i Hi. fold locs. fold main.
    rewrite (relextrema_loop_lookup _ _ i true); [done|done|].
    by apply lookup_replicate_2.
Qed.

Lemma boolrelextrema_inl order :
  order < 1 →
  boolrelextrema data comparator order = inl (ValueError "Order must be an int >= 1").
Proof. intros Ho. unfold boolrelextrema. by rewrite bool_decide_eq_true_2. Qed.

End ExtremaFacts.

Section ProbeFacts.
Import Extrema.

Variable R : Z → Z → Prop.
Variable comparator : Z → Z → bool.
Hypothesis comparator_spec : ∀ x y, comparator x y = true ↔ R x y.
Hypothesis R_irrefl : ∀ x, ¬ R x x.

Lemma take_clip_inside (a : list Z) (j : Z) :
  0 ≤ j < len a → take_clip a j = a !!! Z.to_nat j.
Proof. intros Hj. unfold take_clip, clip. f_equal. lia. Qed.

Lemma probes_extremum (a : list Z) (order : Z) (i : nat) :
  1 ≤ order → (i < length a)%nat →
  forallb (probe comparator a i) (seqZ 1 order) = true
  ↔ clipped_extremum R a order (Z.of_nat i).
Proof.
  intros Ho Hi. rewrite forallb_forall.
  assert (Hn : len a = Z.of_nat (length a)) by done.
  assert (Hself : take_clip a (Z.of_nat i) = a !!! i).
  { rewrite take_clip_inside by lia. by rewrite Nat2Z.id. }
  split.
  - intros Hall.
    assert (Hs : ∀ s, 1 ≤ s ≤ order →
              R (a !!! i) (take_clip a (Z.of_nat i + s))
              ∧ R (a !!! i) (take_clip a (Z.of_nat i - s))).
    { intros s Hs. specialize (Hall s).
      rewrite <- list_elem_of_In, elem_of_seqZ in Hall.
      specialize (Hall ltac:(lia)). unfold probe in Hall.
      apply andb_true_iff in Hall as [H1 H2].
      rewrite Hself in H1, H2. by rewrite <- !comparator_spec. }
    split; [split|].
    + destruct (decide (i = 0%nat)) as [->|]; [|lia].
      destruct (Hs 1 ltac:(lia)) as [_ H]. exfalso. apply (R_irrefl (a !!! 0%nat)).
      replace (a !!! 0%nat) with (take_clip a (Z.of_nat 0 - 1)) at 2; [done|].
      unfold take_clip, clip. f_equal. lia.
    + destruct (decide (Z.of_nat i = len a - 1)) as [Hlast|]; [|lia].
      destruct (Hs 1 ltac:(lia)) as [H _]. exfalso. apply (R_irrefl (a !!! i)).
      replace (a !!! i) with (take_clip a (Z.of_nat i + 1)) at 2; [done|].
      unfold take_clip, clip. f_equal. lia.
    + intros j Hwin Hj Hne. rewrite Nat2Z.id. rewrite <- take_clip_inside by done.
      destruct (decide (Z.of_nat i < j)).
      * replace j with (Z.of_nat i + (j - Z.of_nat i)) by lia.
        apply Hs. lia.
      * replace j with (Z.of_nat i - (Z.of_nat i - j)) by lia.
        apply Hs. lia.
  - intros [Hrange Hbeats] s Hs.
    rewrite <- list_elem_of_In, elem_of_seqZ in Hs.
    unfold probe. rewrite Hself. apply andb_true_iff.
    rewrite !comparator_spec. unfold take_clip.
    specialize (Hbeats (clip (len a) (Z.of_nat i + s))) as Hplus.
    specialize (Hbeats (clip (len a) (Z.of_nat i - s))) as Hminus.
    rewrite Nat2Z.id in Hplus, Hminus. unfold clip in *.
    split; [apply Hplus | apply Hminus]; lia.
Qed.

End ProbeFacts.

Section SelectFacts.
Context {A : Type}.
Implicit Types (l : list A) (mask : list bool).

Lemma select_cons x l b mask :
  select (x :: l) (b :: mask) = if b then x :: select l mask else select l mask.
Proof.
  unfold select. cbn [zip zip_with]. rewrite filter_cons.
  destruct b; case_decide; naive_solver.
Qed.

Lemma select_sublist l mask : select l mask `sublist_of` l.
Proof.
  revert mask. induction l as [|x l IH]; intros [|b mask]; try apply sublist_nil_l.
  rewrite select_cons. destruct b.
  - by apply sublist_skip.
  - by apply sublist_cons.
Qed.

Lemma select_fmap (f : A → bool) l :
  select l (f <$> l) = filter (λ x, f x = true) l.
Proof.
  induction l as [|x l IH]; [done|].
  rewrite fmap_cons, select_cons, filter_cons, IH.
  destruct (f x) eqn:Hf; [by rewrite decide_True | by rewrite decide_False].
Qed.

Lemma sublist_StronglySorted (R : relation A) l1 l2 :
  l1 `sublist_of` l2 → StronglySorted R l2 → StronglySorted R l1.
Proof.
  induction 1 as [|x l1 l2 Hsub IH|x l1 l2 Hsub IH]; intros Hs; [done|..].
  - apply StronglySorted_inv in Hs as [Hs Hall]. constructor; [by apply IH|].
    rewrite Forall_forall in Hall |- *. intros y Hy. apply Hall.
    by eapply elem_of_sublist.
  - apply StronglySorted_inv in Hs as [Hs _]. by apply IH.
Qed.

End SelectFacts.

Lemma seqZ_StronglySorted (m n : Z) : StronglySorted Z.lt (seqZ m n).
Proof.
  destruct (decide (0 ≤ n)) as [Hn|]; [|rewrite seqZ_nil by lia; constructor].
  revert m. pattern n. apply natlike_ind; [|clear n Hn|done].
  - intros m. rewrite seqZ_nil by lia. constructor.
  - intros n Hn IH m. rewrite seqZ_cons by lia.
    replace (Z.pred (Z.succ n)) with n by lia. constructor; [apply IH|].
    apply Forall_seqZ. lia.
Qed.

Section NonzeroFacts.
Import Extrema.

Lemma nonzero_ascending (results : list bool) :
  StronglySorted Z.lt (nonzero results).
Proof.
  eapply sublist_StronglySorted; [apply select_sublist | apply seqZ_StronglySorted].
Qed.

Lemma elem_of_nonzero (results : list bool) (i : Z) :
  i ∈ nonzero results ↔ 0 ≤ i ∧ results !! Z.to_nat i = Some true.
Proof.
  unfold nonzero, select. rewrite list_elem_of_fmap. split.
  - intros ([x b] & -> & Hin). apply list_elem_of_filter in Hin as [Hb Hin].
    simpl in *. subst b. apply list_elem_of_lookup in Hin as [n Hn].
    apply lookup_zip_Some in Hn as [Hx Hr].
    apply lookup_seqZ in Hx as [-> _].
    split; [lia|]. by replace (Z.to_nat (0 + Z.of_nat n)) with n by lia.
  - intros [Hi Hr]. exists (i, true). split; [done|].
    apply list_elem_of_filter. split; [done|].
    apply list_elem_of_lookup. exists (Z.to_nat i).
    apply lookup_zip_Some. split; [|done].
    apply lookup_seqZ. split; [lia|].
    apply lookup_lt_Some in Hr. unfold len. lia.
Qed.

Lemma argrelextrema_inr (R : Z → Z → Prop) (comparator : Z → Z → bool)
    (a : list Z) (order : Z) :
  (∀ x y, comparator x y = true ↔ R x y) → (∀ x, ¬ R x x) →
  1 ≤ order →
  ∃ idx, argrelextrema a comparator order = inr idx
         ∧ StronglySorted Z.lt idx
         ∧ ∀ i, i ∈ idx ↔ clipped_extremum R a order i.
Proof.
  intros Hcmp Hirr Ho.
  destruct (boolrelextrema_inr comparator a order Ho) as (rs & Hrs & Hlen & Hlook).
  exists (nonzero rs). split.
  { unfold argrelextrema. rewrite Hrs. done. }
  split; [apply nonzero_ascending|].
  intros i. rewrite elem_of_nonzero. split.
  - intros [Hi Hr]. pose proof (lookup_lt_Some _ _ _ Hr) as Hlt.
    rewrite Hlen in Hlt. rewrite (Hlook _ Hlt) in Hr. injection Hr as Hr.
    apply (probes_extremum R comparator Hcmp Hirr) in Hr; [|done|done].
    by rewrite Z2Nat.id in Hr.
  - intros Hext. pose proof Hext as [[Hi1 Hi2] _].
    split; [lia|]. unfold len in Hi2.
    rewrite Hlook by lia. f_equal.
    apply (probes_extremum R comparator Hcmp Hirr); [done|lia|].
    by rewrite Z2Nat.id by lia.
Qed.

Lemma np_less_spec x y : np_less x y = true ↔ x < y.
Proof. unfold np_less. by rewrite bool_decide_eq_true. Qed.

Lemma np_greater_spec x y : np_greater x y = true ↔ x > y.
Proof. unfold np_greater. by rewrite bool_decide_eq_true. Qed.

End NonzeroFacts.

Lemma len_fmap {A B} (f : A → B) (l : list A) : len (f <$> l) = len l.
Proof. unfold len. by rewrite length_fmap. Qed.

Lemma interior_clipped (R : Z → Z → Prop) (a : list Z) (order i : Z) :
  1 ≤ order → interior_extremum R a order i → clipped_extremum R a order i.
Proof. intros Ho [Hi Hb]. split; [lia|done]. Qed.

(** With [order = 1] the window of any reported position is whole. *)
Lemma clipped_interior_order_1 (R : Z → Z → Prop) (a : list Z) (i : Z) :
  clipped_extremum R a 1 i ↔ interior_extremum R a 1 i.
Proof. unfold clipped_extremum, interior_extremum. intuition lia. Qed.

(** The general case of [find_support_resistance]. *)
Lemma find_support_resistance_general (data : DataFrame) (order : Z) :
  1 ≤ order → order * 2 + 1 ≤ len data →
  ∃ sidx ridx,
    let close_prices := Close <$> data in
    supports_idx close_prices order = inr sidx
    ∧ resistances_idx close_prices order = inr ridx
    ∧ find_support_resistance data order
      = inr ((λ i, close_prices !!! Z.to_nat i) <$> sidx,
             (λ i, close_prices !!! Z.to_nat i) <$> ridx)
    ∧ StronglySorted Z.lt sidx
    ∧ StronglySorted Z.lt ridx
    ∧ (∀ i, i ∈ sidx ↔ clipped_extremum Z.lt close_prices order i)
    ∧ (∀ i, i ∈ ridx ↔ clipped_extremum Z.gt close_prices order i).
Proof.
  intros Ho Hlen.
  destruct (argrelextrema_inr Z.lt Extrema.np_less (Close <$> data) order)
    as (sidx & Hs & Hssorted & Hsiff); [apply np_less_spec|lia|done|].
  destruct (argrelextrema_inr Z.gt Extrema.np_greater (Close <$> data) order)
    as (ridx & Hr & Hrsorted & Hriff); [apply np_greater_spec|lia|done|].
  exists sidx, ridx. cbv zeta. split_and!; try done.
  unfold find_support_resistance.
  destruct data as [|b data]; [unfold len in Hlen; simpl in Hlen; lia|].
  rewrite bool_decide_eq_false_2 by (rewrite len_fmap; lia).
  unfold supports_idx, resistances_idx in *. by rewrite Hs, Hr.
Qed.

(** The fallback of [find_support_resistance] on a short frame. *)
Lemma find_support_resistance_short (data : DataFrame) (order : Z) (b : Bar) :
  head data = Some b → len data < order * 2 + 1 →
  find_support_resistance data order = inr ([Close b], [Close b]).
Proof.
  intros Hhead Hlen. destruct data as [|b' data]; [done|].
  injection Hhead as ->. unfold find_support_resistance.
  rewrite bool_decide_eq_true_2 by (rewrite len_fmap; lia). done.
Qed.

(** C1 (as amended).  On a frame of at least [2 * order + 1] rows and with
    [order >= 1], [find_support_resistance] returns the closes at the
    positions [supports_idx] and [resistances_idx], listed in ascending
    order.  Position [i] is a support iff [1 <= i <= len - 2] and its close
    is strictly below every other close within [order] positions of [i]
    that exists in the frame; a resistance iff it is strictly above them.
    Every position with a whole window that satisfies the strict condition
    is therefore reported, but positions closer than [order] to either end
    may be reported as well.  On closes [5,3,5,2,5] with [order = 1] the
    supports are positions 1 and 3 and position 2 is a resistance. *)
Theorem find_support_resistance_extrema (data : DataFrame) (order : Z) :
  1 ≤ order → order * 2 + 1 ≤ len data →
  (∃ sidx ridx,
     let close_prices := Close <$> data in
     supports_idx close_prices order = inr sidx
     ∧ resistances_idx close_prices order = inr ridx
     ∧ find_support_resistance data order
       = inr ((λ i, close_prices !!! Z.to_nat i) <$> sidx,
              (λ i, close_prices !!! Z.to_nat i) <$> ridx)
     ∧ StronglySorted Z.lt sidx
     ∧ StronglySorted Z.lt ridx
     ∧ (∀ i, i ∈ sidx ↔ clipped_extremum Z.lt close_prices order i)
     ∧ (∀ i, i ∈ ridx ↔ clipped_extremum Z.gt close_prices order i)
     ∧ (∀ i, interior_extremum Z.lt close_prices order i → i ∈ sidx)
     ∧ (∀ i, interior_extremum Z.gt close_prices order i → i ∈ ridx))
  ∧ supports_idx [5; 3; 5; 2; 5] 1 = inr [1; 3]
  ∧ resistances_idx [5; 3; 5; 2; 5] 1 = inr [2].
Proof.
  intros Ho Hlen. split; [|by vm_compute].
  destruct (find_support_resistance_general data order Ho Hlen)
    as (sidx & ridx & Hs & Hr & Hfind & Hss & Hrs & Hsiff & Hriff).
  exists sidx, ridx. cbv zeta. split_and!; try done.
  - intros. by apply Hsiff, interior_clipped.
  - intros. by apply Hriff, interior_clipped.
Qed.

Lemma find_support_resistance_extrema_witness :
  1 ≤ 2 ∧ 2 * 2 + 1 ≤ len (frame_of_closes [5; 1; 5; 5; 5])
  ∧ ∃ sidx, supports_idx (Close <$> frame_of_closes [5; 1; 5; 5; 5]) 2 = inr sidx
            ∧ ∀ i, i ∈ sidx
                   ↔ clipped_extremum Z.lt (Close <$> frame_of_closes [5; 1; 5; 5; 5]) 2 i.
Proof.
  assert (H1 : 1 ≤ 2) by lia.
  assert (H2 : 2 * 2 + 1 ≤ len (frame_of_closes [5; 1; 5; 5; 5])) by (vm_compute; discriminate).
  split; [exact H1|]. split; [exact H2|].
  destruct (find_support_resistance_extrema (frame_of_closes [5; 1; 5; 5; 5]) 2 H1 H2)
    as [(sidx & ridx & Hs & _ & _ & _ & _ & Hiff & _) _].
  exists sidx. split; [exact Hs | exact Hiff].
Defined.

(** C1, as stated, fails twice.  With [order = 2] position 1 of closes
    [5,1,5,5,5] is reported as a support although it is closer than [order]
    to the start; and on closes [5,3,5,2,5] with [order = 1] the interior
    position 2 is reported as a resistance. *)
Lemma find_support_resistance_not_interior_only :
  (∃ sidx, supports_idx [5; 1; 5; 5; 5] 2 = inr sidx
           ∧ 1 ∈ sidx
           ∧ ¬ interior_extremum Z.lt [5; 1; 5; 5; 5] 2 1)
  ∧ (∃ ridx, resistances_idx [5; 3; 5; 2; 5] 1 = inr ridx
             ∧ 2 ∈ ridx
             ∧ interior_extremum Z.gt [5; 3; 5; 2; 5] 1 2
             ∧ find_support_resistance (frame_of_closes [5; 3; 5; 2; 5]) 1
               = inr ([3; 2], [5])).
Proof.
  split.
  - exists [1]. split; [by vm_compute|]. split; [set_solver|].
    intros [Hi _]. lia.
  - exists [2]. split; [by vm_compute|]. split; [set_solver|]. split; [|by vm_compute].
    split; [unfold len; simpl; lia|].
    intros j Hj1 Hj2 Hne.
    assert (j = 1 ∨ j = 3) as [-> | ->] by lia; vm_compute; done.
Qed.

(** C2.  A non-empty frame of fewer than [2 * order + 1] rows yields the
    first close both as the only support and as the only resistance. *)
Theorem find_support_resistance_fallback (data : DataFrame) (order : Z) (b : Bar) :
  head data = Some b → len data < order * 2 + 1 →
  find_support_resistance data order = inr ([Close b], [Close b]).
Proof. apply find_support_resistance_short. Qed.

Lemma find_support_resistance_fallback_witness :
  head (frame_of_closes [7; 4]) = Some (bar_of_close 0 7)
  ∧ len (frame_of_closes [7; 4]) < 2 * 2 + 1
  ∧ find_support_resistance (frame_of_closes [7; 4]) 2 = inr ([7], [7]).
Proof.
  assert (H1 : head (frame_of_closes [7; 4]) = Some (bar_of_close 0 7)) by reflexivity.
  assert (H2 : len (frame_of_closes [7; 4]) < 2 * 2 + 1) by (vm_compute; reflexivity).
  split; [exact H1|]. split; [exact H2|].
  exact (find_support_resistance_fallback (frame_of_closes [7; 4]) 2 _ H1 H2).
Defined.

(** C10.  For [order >= 1] the call returns, and every price in either list
    is the close of a row of the frame; the empty frame gives two empty
    lists. *)
Theorem find_support_resistance_closes (data : DataFrame) (order : Z) :
  1 ≤ order →
  (∃ supports resistances,
     find_support_resistance data order = inr (supports, resistances)
     ∧ Forall (λ p, ∃ b, b ∈ data ∧ Close b = p) supports
     ∧ Forall (λ p, ∃ b, b ∈ data ∧ Close b = p) resistances)
  ∧ find_support_resistance [] order = inr ([], []).
Proof.
  intros Ho. split; [|done].
  assert (Hin : ∀ (close_prices : list Z) i, close_prices = Close <$> data →
            0 ≤ i < len close_prices →
            ∃ b, b ∈ data ∧ Close b = close_prices !!! Z.to_nat i).
  { intros cp i -> Hi. rewrite len_fmap in Hi. unfold len in Hi.
    destruct (lookup_lt_is_Some_2 data (Z.to_nat i)) as [b Hb]; [lia|].
    exists b. split; [by eapply list_elem_of_lookup_2|].
    rewrite list_lookup_total_alt, list_lookup_fmap, Hb. done. }
  destruct data as [|b0 data]; [by exists [], []|].
  destruct (decide (len (b0 :: data) < order * 2 + 1)) as [Hshort|Hlong].
  - exists [Close b0], [Close b0].
    split; [by apply (find_support_resistance_short _ _ b0)|].
    split; repeat constructor; exists b0; (split; [by left|done]).
  - assert (Hlen : order * 2 + 1 ≤ len (b0 :: data)) by lia.
    destruct (find_support_resistance_general (b0 :: data) order Ho Hlen)
      as (sidx & ridx & _ & _ & Hfind & _ & _ & Hsiff & Hriff).
    eexists _, _. split; [exact Hfind|].
    split; apply Forall_fmap, Forall_forall; intros i Hi; cbv beta.
    + apply Hsiff in Hi as [Hi _]. apply Hin; [done|lia].
    + apply Hriff in Hi as [Hi _]. apply Hin; [done|lia].
Qed.

Lemma find_support_resistance_closes_witness :
  1 ≤ 1
  ∧ ∃ supports resistances,
      find_support_resistance (frame_of_closes [5; 3; 5; 2; 5]) 1
      = inr (supports, resistances)
      ∧ Forall (λ p, ∃ b, b ∈ frame_of_closes [5; 3; 5; 2; 5] ∧ Close b = p) supports
      ∧ Forall (λ p, ∃ b, b ∈ frame_of_closes [5; 3; 5; 2; 5] ∧ Close b = p) resistances.
Proof.
  assert (H1 : 1 ≤ 1) by lia.
  split; [exact H1|].
  exact (proj1 (find_support_resistance_closes (frame_of_closes [5; 3; 5; 2; 5]) 1 H1)).
Defined.

(** ** The extended-hours window *)

Lemma eastern_2025_offsets : us_eastern_offsets eastern_2025.
Proof. intros w. unfold eastern_2025. case_bool_decide; lia. Qed.




(** ** The window filter *)

Lemma zip_with_fmap_same {A B C D} (h : B → C → D) (f : A → B) (g : A → C)
    (l : list A) :
  zip_with h (f <$> l) (g <$> l) = (λ x, h (f x) (g x)) <$> l.
Proof. induction l as [|x l IH]; [done|]. rewrite !fmap_cons. simpl. by f_equal. Qed.

Lemma window_filter_filter (data : DataFrame) (extended_start extended_end : DateTime) :
  window_filter data extended_start extended_end
  = filter (λ b, instant extended_start ≤ Timestamp b ≤ instant extended_end) data.
Proof.
  unfold window_filter, boolean_index, index_ge, index_le.
  rewrite <- !list_fmap_compose, zip_with_fmap_same, select_fmap.
  apply list_filter_iff. intros b. simpl.
  rewrite andb_true_iff, !bool_decide_eq_true. lia.
Qed.


(** ** Aggregation of one bucket *)

Section Aggregation.

Lemma foldl_max_spec (x : Z) (xs : list Z) :
  let m := foldl Z.max x xs in
  m ∈ x :: xs ∧ ∀ y, y ∈ x :: xs → y ≤ m.
Proof.
  revert x. induction xs as [|x' xs IH]; intros x; simpl.
  { split; [by left|]. intros y Hy. apply list_elem_of_singleton in Hy. lia. }
  destruct (IH (Z.max x x')) as [Hin Hle]. split.
  - apply elem_of_cons in Hin as [Hm|Hin].
    + rewrite Hm. destruct (Z.max_spec x x') as [[_ ->]|[_ ->]].
      * right. by left.
      * by left.
    + right. by right.
  - intros y Hy. apply elem_of_cons in Hy as [->|Hy].
    + specialize (Hle (Z.max x x') ltac:(by left)). lia.
    + apply elem_of_cons in Hy as [->|Hy].
      * specialize (Hle (Z.max x x') ltac:(by left)). lia.
      * apply Hle. by right.
Qed.

Lemma foldl_min_spec (x : Z) (xs : list Z) :
  let m := foldl Z.min x xs in
  m ∈ x :: xs ∧ ∀ y, y ∈ x :: xs → m ≤ y.
Proof.
  revert x. induction xs as [|x' xs IH]; intros x; simpl.
  { split; [by left|]. intros y Hy. apply list_elem_of_singleton in Hy. lia. }
  destruct (IH (Z.min x x')) as [Hin Hle]. split.
  - apply elem_of_cons in Hin as [Hm|Hin].
    + rewrite Hm. destruct (Z.min_spec x x') as [[_ ->]|[_ ->]].
      * by left.
      * right. by left.
    + right. by right.
  - intros y Hy. apply elem_of_cons in Hy as [->|Hy].
    + specialize (Hle (Z.min x x') ltac:(by left)). lia.
    + apply elem_of_cons in Hy as [->|Hy].
      * specialize (Hle (Z.min x x') ltac:(by left)). lia.
      * apply Hle. by right.
Qed.

Lemma agg_max_spec (xs : list Z) :
  xs ≠ [] → ∃ m, agg_max xs = Some m ∧ m ∈ xs ∧ ∀ y, y ∈ xs → y ≤ m.
Proof.
  destruct xs as [|x xs]; [done|]. intros _. eexists. split; [done|].
  apply foldl_max_spec.
Qed.

Lemma agg_min_spec (xs : list Z) :
  xs ≠ [] → ∃ m, agg_min xs = Some m ∧ m ∈ xs ∧ ∀ y, y ∈ xs → m ≤ y.
Proof.
  destruct xs as [|x xs]; [done|]. intros _. eexists. split; [done|].
  apply foldl_min_spec.
Qed.

Lemma agg_sum_fmap (bars : list Bar) :
  agg_sum (Volume <$> bars) = wrap64 (foldr (λ b total, Volume b + total) 0 bars).
Proof.
  unfold agg_sum. f_equal.
  induction bars as [|b bars IH]; [done|]. simpl. by rewrite <- IH.
Qed.

Lemma wrap64_small (z : Z) : - 2 ^ 63 ≤ z < 2 ^ 63 → wrap64 z = z.
Proof. intros Hz. unfold wrap64. rewrite Z.mod_small by lia. lia. Qed.

Lemma wrap64_range (z : Z) : - 2 ^ 63 ≤ wrap64 z < 2 ^ 63.
Proof.
  unfold wrap64. pose proof (Z.mod_pos_bound (z + 2 ^ 63) (2 ^ 64) ltac:(lia)). lia.
Qed.

Lemma wrap64_congruent (z : Z) : ∃ q, wrap64 z = z + q * 2 ^ 64.
Proof.
  exists (- ((z + 2 ^ 63) `div` 2 ^ 64)). unfold wrap64.
  pose proof (Z.div_mod (z + 2 ^ 63) (2 ^ 64) ltac:(lia)). lia.
Qed.

Lemma index_increasing_sublist (l1 l2 : DataFrame) :
  l1 `sublist_of` l2 → index_increasing l2 → index_increasing l1.
Proof.
  intros Hsub. apply sublist_StronglySorted. by apply fmap_sublist.
Qed.

Lemma index_increasing_head (b : Bar) (bars : DataFrame) :
  index_increasing (b :: bars) →
  ∀ b', b' ∈ b :: bars → Timestamp b ≤ Timestamp b'.
Proof.
  intros Hs b' Hb'. unfold index_increasing in Hs. rewrite fmap_cons in Hs.
  apply StronglySorted_inv in Hs as [_ Hall].
  apply elem_of_cons in Hb' as [->|Hb']; [lia|].
  rewrite Forall_fmap, Forall_forall in Hall. specialize (Hall b' Hb'). simpl in Hall. lia.
Qed.

Lemma index_increasing_last (b : Bar) (bars : DataFrame) :
  index_increasing (bars ++ [b]) →
  ∀ b', b' ∈ bars ++ [b] → Timestamp b' ≤ Timestamp b.
Proof.
  intros Hs b' Hb'. unfold index_increasing in Hs. rewrite fmap_app in Hs.
  apply elem_of_app in Hb' as [Hb'|Hb'].
  - apply Z.lt_le_incl.
    apply (StronglySorted_app_1_elem_of _ _ _ _ _ Hs).
    + by apply list_elem_of_fmap_2.
    + simpl. by left.
  - apply list_elem_of_singleton in Hb' as ->. lia.
Qed.

(** An empty bucket aggregates to a row of NaN prices, which [dropna]
    removes. *)
Lemma notna_agg_row_empty (g : Grid) (k : Z) : notna (agg_row g (k, [])) = None.
Proof. done. Qed.

Lemma notna_agg_row_nonempty (g : Grid) (k : Z) (bars : list Bar) :
  bars ≠ [] →
  ∃ o, notna (agg_row g (k, bars)) = Some o ∧ Timestamp o = left_edge g k.
Proof.
  intros Hne.
  assert (is_Some (agg_first (Open <$> bars))) as [op Hop].
  { apply head_is_Some. by destruct bars. }
  destruct (agg_max_spec (High <$> bars)) as (hi & Hhi & _); [by destruct bars|].
  destruct (agg_min_spec (Low <$> bars)) as (lo & Hlo & _); [by destruct bars|].
  assert (is_Some (agg_last (Close <$> bars))) as [cl Hcl].
  { apply last_is_Some. by destruct bars. }
  unfold notna, agg_row.
  cbn [row_index row_Open row_High row_Low row_Close row_Volume].
  rewrite Hop, Hhi, Hlo, Hcl. by eexists.
Qed.

Lemma notna_agg_row_aggregates (g : Grid) (k : Z) (bars : list Bar) (o : Bar) :
  index_increasing bars →
  notna (agg_row g (k, bars)) = Some o →
  aggregates bars o.
Proof.
  intros Hs. unfold notna, agg_row.
  cbn [row_index row_Open row_High row_Low row_Close row_Volume].
  destruct (agg_first (Open <$> bars)) as [op|] eqn:Hop; [simpl|done].
  destruct (agg_max (High <$> bars)) as [hi|] eqn:Hhi; [simpl|done].
  destruct (agg_min (Low <$> bars)) as [lo|] eqn:Hlo; [simpl|done].
  destruct (agg_last (Close <$> bars)) as [cl|] eqn:Hcl; [simpl|done].
  intros [= <-]. 
  assert (Hne : bars ≠ []) by (intros ->; done).
  split; simpl.
  - destruct bars as [|b bars]; [done|]. injection Hop as <-.
    exists b. split; [by left|]. split; [|done].
    by apply index_increasing_head.
  - destruct (agg_max_spec (High <$> bars)) as (m & Hm & Hin & Hle).
    { by destruct bars. }
    rewrite Hhi in Hm. injection Hm as <-. split.
    + apply list_elem_of_fmap in Hin as (b & -> & Hb). by exists b.
    + intros b Hb. apply Hle. by apply list_elem_of_fmap_2.
  - destruct (agg_min_spec (Low <$> bars)) as (m & Hm & Hin & Hle).
    { by destruct bars. }
    rewrite Hlo in Hm. injection Hm as <-. split.
    + apply list_elem_of_fmap in Hin as (b & -> & Hb). by exists b.
    + intros b Hb. apply Hle. by apply list_elem_of_fmap_2.
  - unfold agg_last in Hcl. rewrite fmap_last in Hcl.
    destruct (last bars) as [b|] eqn:Hlast; [|done].
    injection Hcl as <-. apply last_Some in Hlast as [bars' ->].
    exists b. split; [apply elem_of_app; right; by left|]. split; [|done].
    by apply index_increasing_last.
  - apply agg_sum_fmap.
Qed.

End Aggregation.

(** ** Resampling a frame *)

Section Resampling.
Variable g : Grid.
Variable data : DataFrame.

Lemma bucket_sublist (k : Z) : bucket g data k `sublist_of` data.
Proof. apply sublist_filter. Qed.

Lemma elem_of_bucket (k : Z) (b : Bar) :
  b ∈ bucket g data k ↔ bin_of g (Timestamp b) = k ∧ b ∈ data.
Proof. unfold bucket. by rewrite list_elem_of_filter. Qed.

Lemma bucket_nonempty (k : Z) :
  bucket g data k ≠ [] ↔ ∃ b, b ∈ data ∧ bin_of g (Timestamp b) = k.
Proof.
  split.
  - destruct (bucket g data k) as [|b bars] eqn:Hb; [done|]. intros _.
    exists b. assert (Hin : b ∈ bucket g data k) by (rewrite Hb; by left).
    apply elem_of_bucket in Hin. tauto.
  - intros (b & Hin & Hk) Hnil.
    assert (Hb : b ∈ bucket g data k) by by apply elem_of_bucket.
    rewrite Hnil in Hb. by apply elem_of_nil in Hb.
Qed.

Lemma bin_range_NoDup : NoDup (bin_range g data).
Proof.
  unfold bin_range. destruct (Timestamp <$> data); [constructor|apply NoDup_seqZ].
Qed.

Lemma bin_range_ascending : StronglySorted Z.lt (bin_range g data).
Proof.
  unfold bin_range.
  destruct (Timestamp <$> data); [constructor|apply seqZ_StronglySorted].
Qed.

Lemma bin_range_covers (b : Bar) :
  (∀ t t', t ≤ t' → bin_of g t ≤ bin_of g t') →
  b ∈ data → bin_of g (Timestamp b) ∈ bin_range g data.
Proof.
  intros Hmono Hb. unfold bin_range.
  apply (list_elem_of_fmap_2 Timestamp) in Hb.
  destruct (Timestamp <$> data) as [|t ts]; [by apply elem_of_nil in Hb|].
  destruct (foldl_min_spec t ts) as [_ Hmin].
  destruct (foldl_max_spec t ts) as [_ Hmax].
  specialize (Hmin _ Hb). specialize (Hmax _ Hb).
  apply Hmono in Hmin, Hmax. cbv zeta. apply elem_of_seqZ. lia.
Qed.

(** The bins that survive [dropna]. *)
Lemma dropna_agg_index (ks : list Z) :
  Timestamp <$> omap (λ k, notna (agg_row g (k, bucket g data k))) ks
  = left_edge g <$> filter (λ k, bucket g data k ≠ []) ks.
Proof.
  induction ks as [|k ks IH]; [done|].
  rewrite filter_cons. cbn [omap list_omap]. case_decide as Hk.
  - destruct (notna_agg_row_nonempty g k _ Hk) as (o & -> & Ho).
    rewrite !fmap_cons. by rewrite Ho, IH.
  - destruct (bucket g data k) as [|b bars]; [|done].
    by rewrite notna_agg_row_empty.
Qed.

Lemma dropna_agg_resample :
  dropna (agg g (resample g data))
  = omap (λ k, notna (agg_row g (k, bucket g data k))) (bin_range g data).
Proof.
  unfold dropna, agg, resample.
  induction (bin_range g data) as [|k ks IH]; [done|].
  rewrite !fmap_cons. cbn [omap list_omap]. by rewrite IH.
Qed.

End Resampling.

Lemma resample_data_rule (env : Env) (data : DataFrame) (timeframe rule : string) :
  rule_of timeframe rule →
  resample_data env data timeframe
  = inr (dropna (agg (grid env rule) (resample (grid env rule) data))).
Proof. intros [[-> ->]|[-> ->]]; reflexivity. Qed.

Lemma anchored_grid_ok (anchor width : Z) :
  0 < width → grid_ok (anchored_grid anchor width).
Proof.
  intros Hw. split; simpl.
  - intros t t' Ht. apply Z.div_le_mono; lia.
  - intros k k' Hk. apply Z.add_lt_mono_l. by apply Z.mul_lt_mono_pos_r.
Qed.

(** C3.  For ['1d'] and ['4h'] and a frame whose index is increasing, every
    row of the resampled frame is the aggregate of a non-empty bucket of
    the input and is labelled with the left edge of its bin: its open is
    the open of the bucket's earliest row, its high the largest high, its
    low the smallest low, its close the close of the latest row, its
    volume the sum of the volumes brought into the range of an [int64],
    which is the sum itself when the sum is in that range.  Two rows
    (O=10,H=12,L=9,C=11,V=100) and (O=11,H=13,L=10,C=12,V=200), the first
    the earlier, in one bin resample to the one row
    (O=10,H=13,L=9,C=12,V=300). *)
Theorem resample_data_aggregates (env : Env) (data : DataFrame)
    (timeframe rule : string) :
  index_increasing data → rule_of timeframe rule →
  (∃ resampled,
     resample_data env data timeframe = inr resampled
     ∧ ∀ o, o ∈ resampled →
            ∃ k, Timestamp o = left_edge (grid env rule) k
                 ∧ bucket (grid env rule) data k ≠ []
                 ∧ aggregates (bucket (grid env rule) data k) o
                 ∧ (- 2 ^ 63 ≤ total_volume (bucket (grid env rule) data k) < 2 ^ 63 →
                    Volume o = total_volume (bucket (grid env rule) data k)))
  ∧ (∀ t1 t2,
       t1 < t2 → bin_of (grid env rule) t1 = bin_of (grid env rule) t2 →
       resample_data env [mkBar t1 10 12 9 11 100; mkBar t2 11 13 10 12 200]
                     timeframe
       = inr [mkBar (left_edge (grid env rule) (bin_of (grid env rule) t1))
                    10 13 9 12 300]).
Proof.
  intros Hinc Hrule. split.
  - eexists. split; [by apply resample_data_rule|].
    intros o Ho. rewrite dropna_agg_resample in Ho.
    apply list_elem_of_omap in Ho as (k & Hk & Ho). exists k.
    assert (Hne : bucket (grid env rule) data k ≠ []).
    { intros Hnil. by rewrite Hnil, notna_agg_row_empty in Ho. }
    assert (Hagg : aggregates (bucket (grid env rule) data k) o).
    { eapply notna_agg_row_aggregates; [|done].
      eapply index_increasing_sublist; [apply bucket_sublist|done]. }
    split_and!; [|done|done|].
    + destruct (notna_agg_row_nonempty (grid env rule) k _ Hne) as (o' & Ho' & Hts).
      congruence.
    + intros Hfit. rewrite (agg_volume _ _ Hagg). by apply wrap64_small.
  - intros t1 t2 Hlt Hbin.
    rewrite (resample_data_rule env _ timeframe rule Hrule). f_equal.
    rewrite dropna_agg_resample. unfold bin_range, bucket.
    cbn [fmap list_fmap Timestamp foldl].
    rewrite Z.min_l, Z.max_r, <- Hbin by lia.
    replace (bin_of (grid env rule) t1 - bin_of (grid env rule) t1 + 1) with 1 by lia.
    change (seqZ (bin_of (grid env rule) t1) 1) with [bin_of (grid env rule) t1].
    cbn [omap list_omap].
    rewrite filter_cons, decide_True by done.
    rewrite filter_cons, decide_True by done.
    rewrite filter_nil. reflexivity.
Qed.

Lemma resample_data_aggregates_witness :
  let data := [mkBar example_start 10 12 9 11 100;
               mkBar (example_start + 1800) 11 13 10 12 200] in
  let env := example_env (λ _, inr data) in
  index_increasing data
  ∧ rule_of "1d" "1D"
  ∧ resample_data env data "1d"
    = inr [mkBar example_midnight 10 13 9 12 300]
  ∧ ∃ resampled,
      resample_data env data "1d" = inr resampled
      ∧ ∀ o, o ∈ resampled →
             ∃ k, Timestamp o = left_edge (grid env "1D") k
                  ∧ bucket (grid env "1D") data k ≠ []
                  ∧ aggregates (bucket (grid env "1D") data k) o
                  ∧ (- 2 ^ 63 ≤ total_volume (bucket (grid env "1D") data k) < 2 ^ 63 →
                     Volume o = total_volume (bucket (grid env "1D") data k)).
Proof.
  intros data env.
  assert (H1 : index_increasing data).
  { unfold index_increasing. simpl. repeat constructor. }
  assert (H2 : rule_of "1d" "1D") by (left; done).
  split; [exact H1|]. split; [exact H2|]. split; [vm_compute; reflexivity|].
  exact (proj1 (resample_data_aggregates env data "1d" "1D" H1 H2)).
Defined.

(** Two bars of volume [2^62] in one day: the daily row carries [-2^63],
    not their sum [2^63]. *)
Lemma resample_data_volume_wraps :
  let data := [mkBar example_start 10 12 9 11 (2 ^ 62);
               mkBar (example_start + 1800) 11 13 10 12 (2 ^ 62)] in
  let env := example_env (λ _, inr data) in
  index_increasing data
  ∧ bucket (grid env "1D") data 0 = data
  ∧ total_volume data = 2 ^ 63
  ∧ resample_data env data "1d"
    = inr [mkBar example_midnight 10 13 9 12 (- 2 ^ 63)]
  ∧ ∃ o, resample_data env data "1d" = inr [o]
         ∧ Timestamp o = left_edge (grid env "1D") 0
         ∧ Volume o ≠ total_volume (bucket (grid env "1D") data 0).
Proof.
  intros data env. split_and!.
  - unfold index_increasing. simpl. repeat constructor.
  - vm_compute. reflexivity.
  - vm_compute. reflexivity.
  - vm_compute. reflexivity.
  - exists (mkBar example_midnight 10 13 9 12 (- 2 ^ 63)).
    split; [vm_compute; reflexivity|]. split; [vm_compute; reflexivity|].
    vm_compute. discriminate.
Qed.

(** C6.  For ['1d'] and ['4h'], the resampled frame has one row for each
    bin that holds at least one input row and none for an empty bin; the
    rows come in ascending order of their bins, hence of their timestamps,
    and there are at most as many of them as input rows. *)
Theorem resample_data_drops_empty (env : Env) (data : DataFrame)
    (timeframe rule : string) :
  grid_ok (grid env rule) → rule_of timeframe rule →
  ∃ resampled ks,
    resample_data env data timeframe = inr resampled
    ∧ Timestamp <$> resampled = left_edge (grid env rule) <$> ks
    ∧ StronglySorted Z.lt ks
    ∧ (∀ k, k ∈ ks ↔ bucket (grid env rule) data k ≠ [])
    ∧ StronglySorted Z.lt (Timestamp <$> resampled)
    ∧ (length resampled ≤ length data)%nat.
Proof.
  intros [Hbin Hedge] Hrule. set (g := grid env rule) in *.
  exists (dropna (agg g (resample g data))),
         (filter (λ k, bucket g data k ≠ []) (bin_range g data)).
  assert (Hidx : Timestamp <$> dropna (agg g (resample g data))
                 = left_edge g <$> filter (λ k, bucket g data k ≠ []) (bin_range g data)).
  { rewrite dropna_agg_resample. apply dropna_agg_index. }
  assert (Hsorted : StronglySorted Z.lt
                      (filter (λ k, bucket g data k ≠ []) (bin_range g data))).
  { eapply sublist_StronglySorted; [apply sublist_filter|apply bin_range_ascending]. }
  split_and!.
  - by apply resample_data_rule.
  - exact Hidx.
  - exact Hsorted.
  - intros k. rewrite list_elem_of_filter. split; [tauto|].
    intros Hne. split; [done|].
    apply bucket_nonempty in Hne as (b & Hb & <-). by apply bin_range_covers.
  - rewrite Hidx. by eapply StronglySorted_fmap.
  - rewrite <- (length_fmap Timestamp), Hidx, length_fmap.
    rewrite <- (length_fmap (λ b, bin_of g (Timestamp b)) data).
    apply submseteq_length, NoDup_submseteq.
    + apply NoDup_filter, bin_range_NoDup.
    + intros k [Hne _]%list_elem_of_filter.
      apply bucket_nonempty in Hne as (b & Hb & <-).
      by apply (list_elem_of_fmap_2 (λ b, bin_of g (Timestamp b))).
Qed.

(** Two rows fourteen hours apart span five four-hour bins, three of them
    empty: two rows come out. *)
Lemma resample_data_drops_empty_witness :
  let data := [bar_of_close example_start 10; bar_of_close example_end 11] in
  let env := example_env (λ _, inr data) in
  grid_ok (grid env "4h")
  ∧ rule_of "4h" "4h"
  ∧ len (bin_range (grid env "4h") data) = 5
  ∧ ∃ resampled ks,
      resample_data env data "4h" = inr resampled
      ∧ Timestamp <$> resampled = left_edge (grid env "4h") <$> ks
      ∧ StronglySorted Z.lt ks
      ∧ (∀ k, k ∈ ks ↔ bucket (grid env "4h") data k ≠ [])
      ∧ StronglySorted Z.lt (Timestamp <$> resampled)
      ∧ (length resampled ≤ length data)%nat.
Proof.
  intros data env.
  assert (H1 : grid_ok (grid env "4h")) by (apply anchored_grid_ok; reflexivity).
  assert (H2 : rule_of "4h" "4h") by (right; done).
  split; [exact H1|]. split; [exact H2|]. split; [vm_compute; reflexivity|].
  exact (resample_data_drops_empty env data "4h" "4h" H1 H2).
Defined.

(** ** Resampling: recognised and unrecognised timeframes *)

Lemma recognized_cases (tf : string) :
  recognized tf ↔ tf = "1d" ∨ tf = "4h" ∨ tf = "30m".
Proof. unfold recognized. set_solver. Qed.

Lemma resample_data_recognized (env : Env) (data : DataFrame) (tf : string) :
  recognized tf → ∃ resampled, resample_data env data tf = inr resampled.
Proof.
  intros [-> | [-> | ->]]%recognized_cases; by eexists.
Qed.

Lemma resample_data_unrecognized (env : Env) (data : DataFrame) (tf : string) :
  ¬ recognized tf →
  resample_data env data tf = inl (ValueError ("Unsupported timeframe: " +:+ tf)).
Proof.
  rewrite recognized_cases. intros Hn. unfold resample_data.
  repeat case_bool_decide; naive_solver.
Qed.

Lemma find_support_resistance_returns (data : DataFrame) (order : Z) :
  1 ≤ order →
  ∃ supports resistances,
    find_support_resistance data order = inr (supports, resistances).
Proof.
  intros Ho. destruct data as [|b0 data]; [by eexists _, _|].
  destruct (decide (len (b0 :: data) < order * 2 + 1)) as [Hshort|Hlong].
  - eexists _, _. by apply (find_support_resistance_short _ _ b0).
  - assert (Hlen : order * 2 + 1 ≤ len (b0 :: data)) by lia.
    destruct (find_support_resistance_general (b0 :: data) order Ho Hlen)
      as (sidx & ridx & _ & _ & Hfind & _).
    by eexists _, _.
Qed.

(** ** The loops over [TIMEFRAMES] *)

Section Loops.
Variable env : Env.
Variable extended_data : DataFrame.

Lemma levels_loop_recognized (tfs : list string)
    (acc : gmap string (list Z * list Z)) :
  Forall recognized tfs →
  ∃ levels, levels_loop env extended_data tfs acc = inr levels
            ∧ dom levels = dom acc ∪ list_to_set tfs.
Proof.
  revert acc. induction tfs as [|tf tfs IH]; intros acc Hall.
  { exists acc. split; [done|]. set_solver. }
  apply Forall_cons in Hall as [Htf Hall]. simpl.
  destruct (resample_data_recognized env extended_data tf Htf) as [resampled ->].
  simpl.
  destruct (find_support_resistance_returns resampled
              (if bool_decide (tf = "1d") then 1
               else if bool_decide (tf = "4h") then 2 else 3))
    as (s & r & ->); [repeat case_bool_decide; lia|].
  simpl. destruct (IH (<[tf := (s, r)]> acc) Hall) as (levels & -> & Hdom).
  exists levels. split; [done|]. rewrite Hdom, dom_insert_L. set_solver.
Qed.

Lemma levels_loop_unrecognized (pre post : list string) (tf : string)
    (acc : gmap string (list Z * list Z)) :
  Forall recognized pre → ¬ recognized tf →
  levels_loop env extended_data (pre ++ tf :: post) acc
  = inl (ValueError ("Unsupported timeframe: " +:+ tf)).
Proof.
  intros Hpre Htf. revert acc.
  induction pre as [|tf' pre IH]; intros acc; simpl.
  { by rewrite resample_data_unrecognized. }
  apply Forall_cons in Hpre as [Htf' Hpre].
  destruct (resample_data_recognized env extended_data tf' Htf') as [resampled ->].
  simpl.
  destruct (find_support_resistance_returns resampled
              (if bool_decide (tf' = "1d") then 1
               else if bool_decide (tf' = "4h") then 2 else 3))
    as (s & r & ->); [repeat case_bool_decide; lia|].
  simpl. by apply IH.
Qed.

Lemma draw_levels_recognized (tf : string) (dashed : bool) (levels : list Z)
    (lines : list Line) :
  recognized tf → ∃ lines', draw_levels tf dashed levels lines = inr lines'.
Proof.
  intros Htf. revert lines. induction levels as [|level levels IH]; intros lines.
  { by eexists. }
  simpl. assert (∃ c, color_of tf = inr c) as [c ->].
  { apply recognized_cases in Htf as [-> | [-> | ->]]; by eexists. }
  simpl. apply IH.
Qed.

Lemma order_map_positive (tf : string) : 1 ≤ default 3 (order_map !! tf).
Proof.
  unfold order_map.
  destruct (decide (tf = "1d")) as [->|]; [by rewrite lookup_insert_eq|].
  rewrite lookup_insert_ne by done.
  destruct (decide (tf = "4h")) as [->|]; [by rewrite lookup_insert_eq|].
  rewrite lookup_insert_ne by done.
  destruct (decide (tf = "30m")) as [->|]; [by rewrite lookup_insert_eq|].
  rewrite lookup_insert_ne by done. by rewrite lookup_empty.
Qed.

Lemma plot_loop_recognized (tfs : list string) (lines : list Line) :
  Forall recognized tfs →
  ∃ lines', plot_loop env extended_data tfs lines = inr lines'.
Proof.
  revert lines. induction tfs as [|tf tfs IH]; intros lines Hall.
  { by eexists. }
  apply Forall_cons in Hall as [Htf Hall]. simpl.
  destruct (resample_data_recognized env extended_data tf Htf) as [resampled ->].
  simpl.
  destruct (find_support_resistance_returns resampled (default 3 (order_map !! tf)))
    as (s & r & ->); [apply order_map_positive|].
  simpl.
  destruct (draw_levels_recognized tf false s lines Htf) as [lines1 ->]. simpl.
  destruct (draw_levels_recognized tf true r lines1 Htf) as [lines2 ->]. simpl.
  by apply IH.
Qed.

End Loops.

Lemma first_unrecognized (tfs : list string) :
  ¬ Forall recognized tfs →
  ∃ pre tf post, tfs = pre ++ tf :: post ∧ Forall recognized pre ∧ ¬ recognized tf.
Proof.
  induction tfs as [|tf tfs IH]; intros Hn.
  { destruct Hn. constructor. }
  destruct (decide (recognized tf)) as [Htf|Htf].
  - destruct IH as (pre & tf' & post & -> & Hpre & Htf').
    { intros Hall. apply Hn. by constructor. }
    exists (tf :: pre), tf', post. split; [done|]. split; [by constructor|done].
  - exists [], tf, tfs. split; [done|]. split; [constructor|done].
Qed.

(** ** One symbol *)

Section OneSymbol.
Variable env : Env.
Variable cfg : Config.
Variables symbol display_symbol : string.

Lemma generate_chart_no_data (w : World) extended_start extended_end :
  get_extended_data env symbol = inr ([], extended_start, extended_end) →
  generate_chart_for_symbol env cfg symbol display_symbol w
  = (inr (), w ++ [NoExtendedData display_symbol]).
Proof. intros H. unfold generate_chart_for_symbol. by rewrite H. Qed.

Lemma generate_chart_download_error (w : World) (e : Exn) :
  download env symbol = inl e →
  generate_chart_for_symbol env cfg symbol display_symbol w = (inl e, w).
Proof.
  intros H. unfold generate_chart_for_symbol, get_extended_data.
  destruct (get_extended_period _ _). by rewrite H.
Qed.

Lemma generate_chart_saved (w : World) extended_data extended_start extended_end :
  get_extended_data env symbol = inr (extended_data, extended_start, extended_end) →
  extended_data ≠ [] →
  Forall recognized (TIMEFRAMES cfg) →
  ∃ support_res_levels fig,
    generate_chart_for_symbol env cfg symbol display_symbol w
    = (inr (), w ++ [ChartSaved display_symbol support_res_levels fig])
    ∧ dom support_res_levels = list_to_set (TIMEFRAMES cfg).
Proof.
  intros H Hne Hall. unfold generate_chart_for_symbol. rewrite H.
  destruct extended_data as [|b data]; [done|].
  destruct (levels_loop_recognized env (b :: data) (TIMEFRAMES cfg) ∅ Hall)
    as (levels & -> & Hdom).
  unfold plot_extended_chart.
  destruct (plot_loop_recognized env (b :: data) (TIMEFRAMES cfg) [] Hall)
    as (lines & ->).
  simpl. eexists _, _. split; [done|]. rewrite Hdom. set_solver.
Qed.

Lemma generate_chart_unsupported (w : World) extended_data extended_start extended_end :
  get_extended_data env symbol = inr (extended_data, extended_start, extended_end) →
  extended_data ≠ [] →
  ¬ Forall recognized (TIMEFRAMES cfg) →
  ∃ tf, tf ∈ TIMEFRAMES cfg ∧ ¬ recognized tf
        ∧ generate_chart_for_symbol env cfg symbol display_symbol w
          = (inl (ValueError ("Unsupported timeframe: " +:+ tf)), w).
Proof.
  intros H Hne Hn. unfold generate_chart_for_symbol. rewrite H.
  destruct extended_data as [|b data]; [done|].
  destruct (first_unrecognized _ Hn) as (pre & tf & post & Heq & Hpre & Htf).
  exists tf. split; [rewrite Heq; set_solver|]. split; [done|].
  rewrite Heq. by rewrite levels_loop_unrecognized.
Qed.

End OneSymbol.



(** C8.  Resampling to ['30m'] returns the frame it was given. *)
Theorem resample_data_30m_identity (env : Env) (data : DataFrame) :
  resample_data env data "30m" = inr data.
Proof. reflexivity. Qed.

(** C5.  [resample_data] raises [ValueError("Unsupported timeframe: ...")]
    for every timeframe other than ['1d'], ['4h'] and ['30m'].  When the
    configured timeframes contain such a one and the symbol has extended
    data, [generate_chart_for_symbol] raises that error and leaves nothing
    behind: no chart and no levels for the other timeframes.  With
    timeframes ['1d', 'bogus'] the error names ['bogus']. *)
Theorem resample_data_unsupported (env : Env) (cfg : Config)
    (symbol display_symbol : string) (w : World) (data : DataFrame)
    (timeframe : string) :
  (¬ recognized timeframe →
   resample_data env data timeframe
   = inl (ValueError ("Unsupported timeframe: " +:+ timeframe)))
  ∧ (∀ extended_data extended_start extended_end,
       get_extended_data env symbol
       = inr (extended_data, extended_start, extended_end) →
       extended_data ≠ [] →
       (¬ Forall recognized (TIMEFRAMES cfg) →
        ∃ tf, tf ∈ TIMEFRAMES cfg ∧ ¬ recognized tf
              ∧ generate_chart_for_symbol env cfg symbol display_symbol w
                = (inl (ValueError ("Unsupported timeframe: " +:+ tf)), w))
       ∧ (TIMEFRAMES cfg = ["1d"; "bogus"] →
          generate_chart_for_symbol env cfg symbol display_symbol w
          = (inl (ValueError "Unsupported timeframe: bogus"), w))).
Proof.
  split; [apply resample_data_unrecognized|].
  intros extended_data extended_start extended_end Hg Hne. split.
  - by eapply generate_chart_unsupported.
  - intros Htfs. unfold generate_chart_for_symbol. rewrite Hg.
    destruct extended_data as [|b ed]; [done|]. rewrite Htfs.
    rewrite (levels_loop_unrecognized env (b :: ed) ["1d"] [] "bogus"); [done|..].
    + constructor; [apply recognized_cases; by left | constructor].
    + rewrite recognized_cases. naive_solver.
Qed.

Lemma resample_data_unsupported_witness :
  let data := [bar_of_close example_start 10; bar_of_close example_end 11] in
  let env := example_env (λ _, inr data) in
  let cfg := mkConfig [] ["AAPL"] ["1d"; "bogus"] in
  ¬ recognized "bogus"
  ∧ resample_data env data "bogus" = inl (ValueError "Unsupported timeframe: bogus")
  ∧ generate_chart_for_symbol env cfg "AAPL" "AAPL" []
    = (inl (ValueError "Unsupported timeframe: bogus"), []).
Proof.
  intros data env cfg.
  assert (H0 : ¬ recognized "bogus") by (rewrite recognized_cases; naive_solver).
  assert (H1 : get_extended_data env "AAPL"
               = inr (data, mkDateTime (combine 20155 18 0) (-18000),
                      mkDateTime (combine 20156 9 0) (-14400)))
    by (vm_compute; reflexivity).
  assert (H2 : data ≠ []) by discriminate.
  assert (H3 : TIMEFRAMES cfg = ["1d"; "bogus"]) by reflexivity.
  pose proof (resample_data_unsupported env cfg "AAPL" "AAPL" [] data "bogus") as [Ha Hb].
  split; [exact H0|]. split; [exact (Ha H0)|].
  exact (proj2 (Hb _ _ _ H1 H2) H3).
Defined.

(** ** The batch *)

Section Batch.
Variable env : Env.
Variable cfg : Config.

(** Whatever the world was, handling one symbol appends exactly one
    event, and that event does not depend on the world. *)
Lemma attempt_single (symbol display_symbol : string) (w : World) :
  ∃ ev, attempt env cfg symbol display_symbol w = w ++ [ev]
        ∧ attempt env cfg symbol display_symbol [] = [ev].
Proof.
  unfold attempt, generate_chart_for_symbol.
  destruct (get_extended_data env symbol) as [e|[[extended_data s] e]].
  { by eexists. }
  destruct extended_data as [|b data]; [by eexists|].
  destruct (levels_loop env (b :: data) (TIMEFRAMES cfg) ∅) as [e'|levels]; simpl.
  { by eexists. }
  destruct (plot_extended_chart env cfg (b :: data) _ _) as [e'|fig]; simpl;
    by eexists.
Qed.

Lemma attempt_append (symbol display_symbol : string) (w : World) :
  attempt env cfg symbol display_symbol w
  = w ++ attempt env cfg symbol display_symbol [].
Proof.
  destruct (attempt_single symbol display_symbol w) as (ev & -> & ->). done.
Qed.

Lemma for_symbols_events (display : string → string) (symbols : list string)
    (w : World) :
  for_symbols env cfg display symbols w
  = w ++ concat ((λ symbol, attempt env cfg symbol (display symbol) []) <$> symbols).
Proof.
  revert w. induction symbols as [|symbol symbols IH]; intros w; simpl.
  { by rewrite app_nil_r. }
  rewrite IH, attempt_append. by rewrite <- app_assoc.
Qed.

Lemma attempt_no_data (symbol display_symbol : string) extended_start extended_end :
  get_extended_data env symbol = inr ([], extended_start, extended_end) →
  attempt env cfg symbol display_symbol [] = [NoExtendedData display_symbol].
Proof.
  intros H. unfold attempt.
  by rewrite (generate_chart_no_data env cfg symbol display_symbol [] _ _ H).
Qed.

Lemma attempt_download_error (symbol display_symbol : string) (e : Exn) :
  download env symbol = inl e →
  attempt env cfg symbol display_symbol [] = [ErrorLogged display_symbol e].
Proof.
  intros H. unfold attempt.
  by rewrite (generate_chart_download_error env cfg symbol display_symbol [] e H).
Qed.

Lemma attempt_saved (symbol display_symbol : string)
    extended_data extended_start extended_end :
  get_extended_data env symbol = inr (extended_data, extended_start, extended_end) →
  extended_data ≠ [] →
  Forall recognized (TIMEFRAMES cfg) →
  ∃ support_res_levels fig,
    attempt env cfg symbol display_symbol []
    = [ChartSaved display_symbol support_res_levels fig]
    ∧ dom support_res_levels = list_to_set (TIMEFRAMES cfg).
Proof.
  intros H Hne Hall. unfold attempt.
  destruct (generate_chart_saved env cfg symbol display_symbol []
              _ _ _ H Hne Hall) as (levels & fig & -> & Hdom).
  by eexists _, _.
Qed.

End Batch.

(** C9.  A run of [generate_charts] appends, for every configured symbol in
    turn, the one event that handling this symbol alone produces: what
    happens to a symbol does not depend on its siblings and never stops the
    run.  A symbol without extended data is skipped with the no-data line,
    a symbol whose download raises gets the error line, and a symbol with
    extended data and recognised timeframes gets a chart whose levels cover
    all configured timeframes.  So a batch of a symbol without data followed
    by a well-formed one yields the no-data line and then the chart. *)
Theorem generate_charts_isolated (env : Env) (cfg : Config) (w : World) :
  generate_charts env cfg w
  = w ++ concat ((λ symbol, attempt env cfg symbol (futures_display symbol) [])
                   <$> FUTURES cfg)
      ++ concat ((λ symbol, attempt env cfg symbol symbol []) <$> STOCKS cfg)
  ∧ (∀ symbol display_symbol,
       length (attempt env cfg symbol display_symbol []) = 1%nat
       ∧ (∀ extended_start extended_end,
            get_extended_data env symbol = inr ([], extended_start, extended_end) →
            attempt env cfg symbol display_symbol [] = [NoExtendedData display_symbol])
       ∧ (∀ e, download env symbol = inl e →
               attempt env cfg symbol display_symbol [] = [ErrorLogged display_symbol e])
       ∧ (∀ extended_data extended_start extended_end,
            get_extended_data env symbol
            = inr (extended_data, extended_start, extended_end) →
            extended_data ≠ [] →
            Forall recognized (TIMEFRAMES cfg) →
            ∃ support_res_levels fig,
              attempt env cfg symbol display_symbol []
              = [ChartSaved display_symbol support_res_levels fig]
              ∧ dom support_res_levels = list_to_set (TIMEFRAMES cfg)))
  ∧ (∀ first second extended_data s1 e1 s2 e2,
       FUTURES cfg = [] → STOCKS cfg = [first; second] →
       Forall recognized (TIMEFRAMES cfg) →
       get_extended_data env first = inr ([], s1, e1) →
       get_extended_data env second = inr (extended_data, s2, e2) →
       extended_data ≠ [] →
       ∃ support_res_levels fig,
         generate_charts env cfg w
         = w ++ [NoExtendedData first; ChartSaved second support_res_levels fig]
         ∧ dom support_res_levels = list_to_set (TIMEFRAMES cfg)).
Proof.
  assert (Hrun : generate_charts env cfg w
    = w ++ concat ((λ symbol, attempt env cfg symbol (futures_display symbol) [])
                     <$> FUTURES cfg)
        ++ concat ((λ symbol, attempt env cfg symbol symbol []) <$> STOCKS cfg)).
  { unfold generate_charts. rewrite !for_symbols_events. by rewrite <- app_assoc. }
  split_and!.
  - exact Hrun.
  - intros symbol display_symbol. split_and!.
    + destruct (attempt_single env cfg symbol display_symbol []) as (ev & _ & ->). done.
    + apply attempt_no_data.
    + apply attempt_download_error.
    + apply attempt_saved.
  - intros first second extended_data s1 e1 s2 e2 Hf Hs Hall H1 H2 Hne.
    destruct (attempt_saved env cfg second second _ _ _ H2 Hne Hall)
      as (levels & fig & Hsaved & Hdom).
    exists levels, fig. split; [|done].
    rewrite Hrun, Hf, Hs. simpl.
    by rewrite (attempt_no_data env cfg first first _ _ H1), Hsaved.
Qed.

Lemma generate_charts_isolated_witness :
  let data := [bar_of_close example_start 10; bar_of_close example_end 11] in
  let env := example_env (λ symbol, if bool_decide (symbol = "AAPL") then inr []
                                    else inr data) in
  let cfg := mkConfig [] ["AAPL"; "MSFT"] ["1d"; "4h"; "30m"] in
  Forall recognized (TIMEFRAMES cfg)
  ∧ data ≠ []
  ∧ ∃ support_res_levels fig,
      generate_charts env cfg []
      = [NoExtendedData "AAPL"; ChartSaved "MSFT" support_res_levels fig]
      ∧ dom support_res_levels = list_to_set (TIMEFRAMES cfg).
Proof.
  intros data env cfg.
  assert (Hall : Forall recognized (TIMEFRAMES cfg)).
  { repeat constructor. }
  assert (Hne : data ≠ []) by discriminate.
  assert (H1 : get_extended_data env "AAPL"
               = inr ([], mkDateTime (combine 20155 18 0) (-18000),
                      mkDateTime (combine 20156 9 0) (-14400)))
    by (vm_compute; reflexivity).
  assert (H2 : get_extended_data env "MSFT"
               = inr (data, mkDateTime (combine 20155 18 0) (-18000),
                      mkDateTime (combine 20156 9 0) (-14400)))
    by (vm_compute; reflexivity).
  split; [exact Hall|]. split; [exact Hne|].
  exact (proj2 (proj2 (generate_charts_isolated env cfg []))
           "AAPL" "MSFT" data _ _ _ _ eq_refl eq_refl Hall H1 H2 Hne).
Defined.

(** * Further properties *)

(** ** Local extrema: errors, separation, trends *)

Lemma StronglySorted_lookup_lt {A} (R : relation A) (l : list A) (i j : nat) (x y : A) :
  StronglySorted R l → (i < j)%nat → l !! i = Some x → l !! j = Some y → R x y.
Proof.
  intros Hs. revert i j. induction Hs as [|a l Hs IH Hall]; intros i j Hij Hi Hj.
  { by rewrite lookup_nil in Hi. }
  destruct j as [|j]; [lia|]. destruct i as [|i]; simpl in *.
  - injection Hi as <-. rewrite Forall_forall in Hall. apply Hall.
    by eapply list_elem_of_lookup_2.
  - apply (IH i j); [lia|done|done].
Qed.

Lemma lookup_total_Z (a : list Z) (j : Z) :
  0 ≤ j < len a → a !! Z.to_nat j = Some (a !!! Z.to_nat j).
Proof.
  intros Hj. apply list_lookup_lookup_total_lt. unfold len in Hj. lia.
Qed.

(** An extremum beats both of its immediate neighbours. *)
Lemma clipped_extremum_adjacent (R : Z → Z → Prop) (a : list Z) (order i : Z) :
  1 ≤ order → clipped_extremum R a order i →
  R (a !!! Z.to_nat i) (a !!! Z.to_nat (i - 1))
  ∧ R (a !!! Z.to_nat i) (a !!! Z.to_nat (i + 1)).
Proof. intros Ho [Hi Hb]. split; apply Hb; lia. Qed.

(** X1.  On a non-empty frame an [order] below 1 makes
    [find_support_resistance] raise the [ValueError] of [argrelextrema]:
    the length test cannot send such a call to the fallback. *)
Theorem find_support_resistance_bad_order (data : DataFrame) (order : Z) :
  data ≠ [] → order < 1 →
  find_support_resistance data order
  = inl (ValueError "Order must be an int >= 1").
Proof.
  intros Hne Ho. destruct data as [|b data]; [done|].
  unfold find_support_resistance.
  rewrite bool_decide_eq_false_2.
  - unfold supports_idx, Extrema.argrelextrema.
    by rewrite boolrelextrema_inl.
  - rewrite len_fmap. unfold len. simpl. lia.
Qed.

Lemma find_support_resistance_bad_order_witness :
  frame_of_closes [5; 3; 5] ≠ [] ∧ 0 < 1
  ∧ find_support_resistance (frame_of_closes [5; 3; 5]) 0
    = inl (ValueError "Order must be an int >= 1").
Proof.
  assert (H1 : frame_of_closes [5; 3; 5] ≠ []) by discriminate.
  assert (H2 : 0 < 1) by lia.
  split; [exact H1|]. split; [exact H2|].
  exact (find_support_resistance_bad_order (frame_of_closes [5; 3; 5]) 0 H1 H2).
Defined.

(** X2.  In the general case no position is both a support and a
    resistance, and two different supports, like two different
    resistances, are more than [order] positions apart. *)
Theorem extrema_separated (data : DataFrame) (order : Z) :
  1 ≤ order → order * 2 + 1 ≤ len data →
  ∃ sidx ridx,
    supports_idx (Close <$> data) order = inr sidx
    ∧ resistances_idx (Close <$> data) order = inr ridx
    ∧ (∀ i, i ∈ sidx → i ∉ ridx)
    ∧ (∀ i j, i ∈ sidx → j ∈ sidx → i < j → order < j - i)
    ∧ (∀ i j, i ∈ ridx → j ∈ ridx → i < j → order < j - i).
Proof.
  intros Ho Hlen.
  destruct (find_support_resistance_general data order Ho Hlen)
    as (sidx & ridx & Hs & Hr & _ & _ & _ & Hsiff & Hriff).
  exists sidx, ridx. split_and!; [done|done|..].
  - intros i Hi Hi'. apply Hsiff in Hi. apply Hriff in Hi'.
    apply clipped_extremum_adjacent in Hi as [_ H1]; [|done].
    apply clipped_extremum_adjacent in Hi' as [_ H2]; [|done]. lia.
  - intros i j Hi Hj Hij. apply Hsiff in Hi as [Hi1 Hi2]. apply Hsiff in Hj as [Hj1 Hj2].
    destruct (decide (order < j - i)) as [|Hnear]; [done|]. exfalso.
    specialize (Hi2 j ltac:(lia) ltac:(lia) ltac:(lia)).
    specialize (Hj2 i ltac:(lia) ltac:(lia) ltac:(lia)). lia.
  - intros i j Hi Hj Hij. apply Hriff in Hi as [Hi1 Hi2]. apply Hriff in Hj as [Hj1 Hj2].
    destruct (decide (order < j - i)) as [|Hnear]; [done|]. exfalso.
    specialize (Hi2 j ltac:(lia) ltac:(lia) ltac:(lia)).
    specialize (Hj2 i ltac:(lia) ltac:(lia) ltac:(lia)). lia.
Qed.

Lemma extrema_separated_witness :
  1 ≤ 1 ∧ 1 * 2 + 1 ≤ len (frame_of_closes [5; 3; 5; 2; 5])
  ∧ ∃ sidx ridx,
      supports_idx (Close <$> frame_of_closes [5; 3; 5; 2; 5]) 1 = inr sidx
      ∧ resistances_idx (Close <$> frame_of_closes [5; 3; 5; 2; 5]) 1 = inr ridx
      ∧ (∀ i, i ∈ sidx → i ∉ ridx)
      ∧ (∀ i j, i ∈ sidx → j ∈ sidx → i < j → 1 < j - i)
      ∧ (∀ i j, i ∈ ridx → j ∈ ridx → i < j → 1 < j - i).
Proof.
  assert (H1 : 1 ≤ 1) by lia.
  assert (H2 : 1 * 2 + 1 ≤ len (frame_of_closes [5; 3; 5; 2; 5]))
    by (vm_compute; discriminate).
  split; [exact H1|]. split; [exact H2|].
  exact (extrema_separated (frame_of_closes [5; 3; 5; 2; 5]) 1 H1 H2).
Defined.

(** Positions in ascending order, each more than [order] after the one
    before: the last is at least [(m - 1) * (order + 1)] past the first. *)
Lemma separated_span (order : Z) (x : Z) (l : list Z) :
  0 ≤ order →
  StronglySorted Z.lt (x :: l) →
  (∀ i j, i ∈ x :: l → j ∈ x :: l → i < j → order < j - i) →
  ∃ y, last (x :: l) = Some y ∧ x + len l * (order + 1) ≤ y.
Proof.
  intros Ho. revert x. induction l as [|y l IH]; intros x Hs Hsep.
  { exists x. split; [done|]. unfold len. simpl. lia. }
  apply StronglySorted_inv in Hs as [Hs Hall].
  destruct (IH y Hs) as (z & Hz & Hle).
  { intros i j Hi Hj. apply Hsep; by right. }
  exists z. split; [by rewrite last_cons_cons|].
  assert (Hxy : x < y) by (apply Forall_inv in Hall; done).
  specialize (Hsep x y ltac:(by left) ltac:(right; by left) Hxy).
  unfold len in *. simpl length. lia.
Qed.

(** X3.  In the general case the number [m] of supports, and likewise of
    resistances, obeys [(m - 1) * (order + 1) + 3 <= len]: the first can
    be no earlier than position 1, the last no later than [len - 2], and
    neighbours are more than [order] apart. *)
Theorem find_support_resistance_count (data : DataFrame) (order : Z) :
  1 ≤ order → order * 2 + 1 ≤ len data →
  ∃ supports resistances,
    find_support_resistance data order = inr (supports, resistances)
    ∧ (supports ≠ [] → (len supports - 1) * (order + 1) + 3 ≤ len data)
    ∧ (resistances ≠ [] → (len resistances - 1) * (order + 1) + 3 ≤ len data).
Proof.
  intros Ho Hlen.
  destruct (find_support_resistance_general data order Ho Hlen)
    as (sidx & ridx & _ & _ & Hfind & Hss & Hrs & Hsiff & Hriff).
  eexists _, _. split; [exact Hfind|].
  assert (Hcount : ∀ (R : Z → Z → Prop) idx,
            (∀ x y, R x y → R y x → False) →
            StronglySorted Z.lt idx →
            (∀ i, i ∈ idx ↔ clipped_extremum R (Close <$> data) order i) →
            idx ≠ [] → (len idx - 1) * (order + 1) + 3 ≤ len data).
  { intros R idx Hasym Hsorted Hiff Hne. destruct idx as [|x l]; [done|].
    destruct (separated_span order x l) as (y & Hy & Hle); [lia|done|..].
    - intros i j Hi Hj Hij. apply Hiff in Hi as [Hi1 Hi2]. apply Hiff in Hj as [Hj1 Hj2].
      destruct (decide (order < j - i)) as [|Hnear]; [done|]. exfalso.
      apply (Hasym (( Close <$> data) !!! Z.to_nat i) ((Close <$> data) !!! Z.to_nat j)).
      + apply Hi2; lia.
      + apply Hj2; lia.
    - assert (Hx : x ∈ x :: l) by by left.
      assert (Hyin : y ∈ x :: l) by by apply last_Some_elem_of.
      apply Hiff in Hx as [Hx _]. apply Hiff in Hyin as [Hyin _].
      rewrite len_fmap in Hx, Hyin. unfold len in *. simpl length. lia. }
  split; intros Hne.
  - unfold len at 1. rewrite length_fmap. apply (Hcount Z.lt); [lia|done|done|].
    by destruct sidx.
  - unfold len at 1. rewrite length_fmap. apply (Hcount Z.gt); [lia|done|done|].
    by destruct ridx.
Qed.

Lemma find_support_resistance_count_witness :
  1 ≤ 1 ∧ 1 * 2 + 1 ≤ len (frame_of_closes [5; 3; 5; 2; 5])
  ∧ ∃ supports resistances,
      find_support_resistance (frame_of_closes [5; 3; 5; 2; 5]) 1
      = inr (supports, resistances)
      ∧ (supports ≠ [] →
         (len supports - 1) * (1 + 1) + 3 ≤ len (frame_of_closes [5; 3; 5; 2; 5]))
      ∧ (resistances ≠ [] →
         (len resistances - 1) * (1 + 1) + 3 ≤ len (frame_of_closes [5; 3; 5; 2; 5])).
Proof.
  assert (H1 : 1 ≤ 1) by lia.
  assert (H2 : 1 * 2 + 1 ≤ len (frame_of_closes [5; 3; 5; 2; 5]))
    by (vm_compute; discriminate).
  split; [exact H1|]. split; [exact H2|].
  exact (find_support_resistance_count (frame_of_closes [5; 3; 5; 2; 5]) 1 H1 H2).
Defined.

Lemma no_elements_nil {A} (l : list A) : (∀ x, x ∉ l) → l = [].
Proof. destruct l as [|x l]; [done|]. intros H. destruct (H x). by left. Qed.

(** X4.  In the general case a frame whose closes never fall, or never
    rise, has no support and no resistance: a trend and a flat stretch
    produce no level. *)
Theorem find_support_resistance_monotone (data : DataFrame) (order : Z) :
  1 ≤ order → order * 2 + 1 ≤ len data →
  StronglySorted Z.le (Close <$> data) ∨ StronglySorted Z.ge (Close <$> data) →
  find_support_resistance data order = inr ([], []).
Proof.
  intros Ho Hlen Hmono.
  destruct (find_support_resistance_general data order Ho Hlen)
    as (sidx & ridx & _ & _ & Hfind & _ & _ & Hsiff & Hriff).
  assert (Hadj : ∀ (R : Z → Z → Prop) i,
            clipped_extremum R (Close <$> data) order i →
            ∃ x y z, R y x ∧ R y z
              ∧ (∀ S, StronglySorted S (Close <$> data) → S x y ∧ S y z)).
  { intros R i Hi. pose proof Hi as [Hrange _]. rewrite len_fmap in Hrange.
    apply clipped_extremum_adjacent in Hi as [H1 H2]; [|done].
    eexists _, _, _. split; [exact H1|]. split; [exact H2|].
    intros S HS. split.
    - eapply (StronglySorted_lookup_lt S _ (Z.to_nat (i - 1)) (Z.to_nat i)); [done|lia|..];
        apply lookup_total_Z; rewrite len_fmap; lia.
    - eapply (StronglySorted_lookup_lt S _ (Z.to_nat i) (Z.to_nat (i + 1))); [done|lia|..];
        apply lookup_total_Z; rewrite len_fmap; lia. }
  assert (sidx = []) as ->.
  { apply no_elements_nil. intros i Hi. apply Hsiff, Hadj in Hi as (x & y & z & H1 & H2 & HS).
    destruct Hmono as [Hm|Hm]; apply HS in Hm; lia. }
  assert (ridx = []) as ->.
  { apply no_elements_nil. intros i Hi. apply Hriff, Hadj in Hi as (x & y & z & H1 & H2 & HS).
    destruct Hmono as [Hm|Hm]; apply HS in Hm; lia. }
  exact Hfind.
Qed.

Lemma find_support_resistance_monotone_witness :
  1 ≤ 2 ∧ 2 * 2 + 1 ≤ len (frame_of_closes [1; 2; 2; 4; 7])
  ∧ (StronglySorted Z.le (Close <$> frame_of_closes [1; 2; 2; 4; 7])
     ∨ StronglySorted Z.ge (Close <$> frame_of_closes [1; 2; 2; 4; 7]))
  ∧ find_support_resistance (frame_of_closes [1; 2; 2; 4; 7]) 2 = inr ([], []).
Proof.
  assert (H1 : 1 ≤ 2) by lia.
  assert (H2 : 2 * 2 + 1 ≤ len (frame_of_closes [1; 2; 2; 4; 7]))
    by (vm_compute; discriminate).
  assert (H3 : StronglySorted Z.le (Close <$> frame_of_closes [1; 2; 2; 4; 7])
               ∨ StronglySorted Z.ge (Close <$> frame_of_closes [1; 2; 2; 4; 7])).
  { left. vm_compute. repeat (constructor; try discriminate). }
  split; [exact H1|]. split; [exact H2|]. split; [exact H3|].
  exact (find_support_resistance_monotone (frame_of_closes [1; 2; 2; 4; 7]) 2 H1 H2 H3).
Defined.

(** ** The window and the extended data *)

Lemma window_span_bounds (eastern : TimeZone) (now : DateTime) :
  us_eastern_offsets eastern →
  ∃ extended_start extended_end,
    get_extended_period eastern now = (extended_start, extended_end)
    ∧ 14 * 3600 ≤ instant extended_end - instant extended_start ≤ 16 * 3600
    ∧ (utcoffset extended_start = utcoffset extended_end →
       instant extended_end - instant extended_start = 15 * 3600).
Proof.
  intros Hoff. eexists _, _. split; [done|].
  unfold instant, localize, combine; simpl.
  pose proof (Hoff ((date now - 1) * 86400 + 18 * 3600 + 0 * 60)).
  pose proof (Hoff (date now * 86400 + 9 * 3600 + 0 * 60)).
  split; [lia|]. intros Heq. lia.
Qed.

(** X5.  For US/Eastern the window lasts fifteen hours when both ends carry
    the same offset, and between fourteen and sixteen hours otherwise. *)
Theorem extended_period_span (eastern : TimeZone) (now : DateTime) :
  us_eastern_offsets eastern →
  ∃ extended_start extended_end,
    get_extended_period eastern now = (extended_start, extended_end)
    ∧ 14 * 3600 ≤ instant extended_end - instant extended_start ≤ 16 * 3600
    ∧ (utcoffset extended_start = utcoffset extended_end →
       instant extended_end - instant extended_start = 15 * 3600).
Proof. apply window_span_bounds. Qed.

(** On 9 March 2025 the window loses the hour skipped at 02:00. *)
Lemma extended_period_span_witness :
  us_eastern_offsets eastern_2025
  ∧ ∃ extended_start extended_end,
      get_extended_period eastern_2025 (mkDateTime (combine 20156 8 0) (-14400))
      = (extended_start, extended_end)
      ∧ instant extended_end - instant extended_start = 14 * 3600.
Proof.
  split; [exact eastern_2025_offsets|].
  destruct (extended_period_span eastern_2025
              (mkDateTime (combine 20156 8 0) (-14400)) eastern_2025_offsets)
    as (s & e & Heq & _ & _).
  exists s, e. split; [exact Heq|].
  injection Heq as <- <-. reflexivity.
Defined.

Lemma get_extended_data_inr (env : Env) (symbol : string) (data : DataFrame) :
  download env symbol = inr data →
  ∃ extended_start extended_end,
    get_extended_period (eastern env) (clock env symbol)
    = (extended_start, extended_end)
    ∧ get_extended_data env symbol
      = inr (window_filter data extended_start extended_end,
             extended_start, extended_end).
Proof.
  intros Hd. unfold get_extended_data.
  destruct (get_extended_period _ _) as [s e]. exists s, e. split; [done|].
  rewrite Hd. simpl. destruct data as [|b data]; done.
Qed.

(** What [get_extended_data] can return. *)
Lemma get_extended_data_inv (env : Env) (symbol : string)
    (extended_data : DataFrame) (extended_start extended_end : DateTime) :
  get_extended_data env symbol = inr (extended_data, extended_start, extended_end) →
  ∃ data,
    download env symbol = inr data
    ∧ get_extended_period (eastern env) (clock env symbol)
      = (extended_start, extended_end)
    ∧ extended_data = window_filter data extended_start extended_end.
Proof.
  intros Hg. destruct (download env symbol) as [e|data] eqn:Hd.
  - unfold get_extended_data in Hg. destruct (get_extended_period _ _).
    by rewrite Hd in Hg.
  - destruct (get_extended_data_inr env symbol data Hd) as (s & e & Hp & Hg').
    rewrite Hg' in Hg. injection Hg as <- <- <-. by exists data.
Qed.

(** X6.  [get_extended_data] passes a provider error on unchanged.
    Otherwise it returns the window of [get_extended_period] and exactly
    the downloaded rows whose timestamp lies in it, in their order; for
    US/Eastern any two of them are therefore at most sixteen hours apart. *)
Theorem get_extended_data_rows (env : Env) (symbol : string) :
  (∀ e, download env symbol = inl e → get_extended_data env symbol = inl e)
  ∧ (∀ data, download env symbol = inr data →
       ∃ extended_data extended_start extended_end,
         get_extended_data env symbol
         = inr (extended_data, extended_start, extended_end)
         ∧ get_extended_period (eastern env) (clock env symbol)
           = (extended_start, extended_end)
         ∧ extended_data `sublist_of` data
         ∧ (∀ b, b ∈ extended_data
                 ↔ b ∈ data
                   ∧ instant extended_start ≤ Timestamp b ≤ instant extended_end)
         ∧ (index_increasing data → index_increasing extended_data)
         ∧ (us_eastern_offsets (eastern env) →
            ∀ b b', b ∈ extended_data → b' ∈ extended_data →
                    Timestamp b' - Timestamp b ≤ 16 * 3600)).
Proof.
  split.
  - intros e Hd. unfold get_extended_data.
    destruct (get_extended_period _ _). by rewrite Hd.
  - intros data Hd.
    destruct (get_extended_data_inr env symbol data Hd) as (s & e & Hp & Hg).
    eexists _, s, e. split; [exact Hg|]. split; [exact Hp|].
    assert (Hiff : ∀ b, b ∈ window_filter data s e
              ↔ b ∈ data ∧ instant s ≤ Timestamp b ≤ instant e).
    { intros b. rewrite window_filter_filter, list_elem_of_filter. tauto. }
    split_and!.
    + apply select_sublist.
    + exact Hiff.
    + apply index_increasing_sublist, select_sublist.
    + intros Hoff b b' [_ Hb]%Hiff [_ Hb']%Hiff.
      destruct (window_span_bounds (eastern env) (clock env symbol) Hoff)
        as (s' & e' & Hp' & Hspan & _).
      rewrite Hp in Hp'. injection Hp' as <- <-. lia.
Qed.

Lemma get_extended_data_rows_witness :
  let data := [bar_of_close (example_start - 1) 9; bar_of_close example_start 10;
               bar_of_close example_end 11; bar_of_close (example_end + 1) 12] in
  let env := example_env (λ _, inr data) in
  download env "AAPL" = inr data
  ∧ ∃ extended_start extended_end,
      get_extended_data env "AAPL"
      = inr ([bar_of_close example_start 10; bar_of_close example_end 11],
             extended_start, extended_end).
Proof.
  intros data env.
  assert (H1 : download env "AAPL" = inr data) by reflexivity.
  split; [exact H1|].
  destruct (proj2 (get_extended_data_rows env "AAPL") data H1)
    as (ext & s & e & Hg & _).
  exists s, e. rewrite Hg. vm_compute in Hg. injection Hg as <- <- <-. reflexivity.
Defined.

(** ** Resampling: what the rows are made of *)

Lemma agg_max_unique (xs : list Z) (m : Z) :
  m ∈ xs → (∀ y, y ∈ xs → y ≤ m) → agg_max xs = Some m.
Proof.
  intros Hin Hle. destruct (agg_max_spec xs) as (m' & -> & Hin' & Hle').
  { intros ->. by apply elem_of_nil in Hin. }
  f_equal. specialize (Hle _ Hin'). specialize (Hle' _ Hin). lia.
Qed.

Lemma agg_min_unique (xs : list Z) (m : Z) :
  m ∈ xs → (∀ y, y ∈ xs → m ≤ y) → agg_min xs = Some m.
Proof.
  intros Hin Hle. destruct (agg_min_spec xs) as (m' & -> & Hin' & Hle').
  { intros ->. by apply elem_of_nil in Hin. }
  f_equal. specialize (Hle _ Hin'). specialize (Hle' _ Hin). lia.
Qed.

(** The cells of an aggregated row, read off the bucket in list order. *)
Lemma notna_agg_row_cells (g : Grid) (k : Z) (bars : list Bar) (o : Bar) :
  notna (agg_row g (k, bars)) = Some o →
  bars ≠ []
  ∧ Timestamp o = left_edge g k
  ∧ head (Open <$> bars) = Some (Open o)
  ∧ agg_max (High <$> bars) = Some (High o)
  ∧ agg_min (Low <$> bars) = Some (Low o)
  ∧ last (Close <$> bars) = Some (Close o)
  ∧ Volume o = wrap64 (total_volume bars).
Proof.
  unfold notna, agg_row.
  cbn [row_index row_Open row_High row_Low row_Close row_Volume].
  destruct (agg_first (Open <$> bars)) as [op|] eqn:Hop; [simpl|done].
  destruct (agg_max (High <$> bars)) as [hi|] eqn:Hhi; [simpl|done].
  destruct (agg_min (Low <$> bars)) as [lo|] eqn:Hlo; [simpl|done].
  destruct (agg_last (Close <$> bars)) as [cl|] eqn:Hcl; [simpl|done].
  intros [= <-]. simpl. split_and!; try done.
  - intros ->. done.
  - apply agg_sum_fmap.
Qed.

Lemma resampled_row_inv (g : Grid) (data : DataFrame) (o : Bar) :
  o ∈ dropna (agg g (resample g data)) →
  ∃ k, k ∈ bin_range g data ∧ notna (agg_row g (k, bucket g data k)) = Some o.
Proof.
  rewrite dropna_agg_resample. intros Ho.
  apply list_elem_of_omap in Ho as (k & Hk & Ho). by exists k.
Qed.

(** Every row of a resampled frame draws each of its cells from rows of
    the input. *)
Lemma resampled_row_sources (g : Grid) (data : DataFrame) (o : Bar) :
  o ∈ dropna (agg g (resample g data)) →
  (∃ b, b ∈ data ∧ Open o = Open b)
  ∧ (∃ b, b ∈ data ∧ High o = High b)
  ∧ (∃ b, b ∈ data ∧ Low o = Low b)
  ∧ (∃ b, b ∈ data ∧ Close o = Close b)
  ∧ (∃ b, b ∈ data ∧ High b ≤ High o ∧ Low o ≤ Low b
          ∧ Open o = Open b)
  ∧ (∃ b, b ∈ data ∧ High b ≤ High o ∧ Low o ≤ Low b
          ∧ Close o = Close b).
Proof.
  intros (k & _ & Ho)%resampled_row_inv.
  apply notna_agg_row_cells in Ho as (Hne & _ & Hop & Hhi & Hlo & Hcl & _).
  assert (Hsub : ∀ b, b ∈ bucket g data k → b ∈ data).
  { intros b Hb. eapply elem_of_sublist; [exact Hb|apply bucket_sublist]. }
  destruct (agg_max_spec (High <$> bucket g data k)) as (m & Hm & Hmin & Hmle).
  { by destruct (bucket g data k). }
  destruct (agg_min_spec (Low <$> bucket g data k)) as (n & Hn & Hnin & Hnle).
  { by destruct (bucket g data k). }
  rewrite Hhi in Hm. injection Hm as <-. rewrite Hlo in Hn. injection Hn as <-.
  assert (Hfirst : ∃ b, b ∈ bucket g data k ∧ Open o = Open b).
  { clear -Hop. destruct (bucket g data k) as [|b bars]; [done|].
    injection Hop as Hop. exists b. split; [by left|done]. }
  assert (Hlast : ∃ b, b ∈ bucket g data k ∧ Close o = Close b).
  { rewrite fmap_last in Hcl.
    destruct (last (bucket g data k)) as [b|] eqn:Hb; [|done].
    injection Hcl as Hcl. exists b. split; [by eapply last_Some_elem_of|done]. }
  destruct Hfirst as (bf & Hbf & Hof). destruct Hlast as (bl & Hbl & Hcl').
  split_and!.
  - exists bf. auto.
  - apply list_elem_of_fmap in Hmin as (b & -> & Hb). exists b. auto.
  - apply list_elem_of_fmap in Hnin as (b & -> & Hb). exists b. auto.
  - exists bl. auto.
  - exists bf. split_and!; [auto| | |done].
    + apply Hmle. by apply list_elem_of_fmap_2.
    + apply Hnle. by apply list_elem_of_fmap_2.
  - exists bl. split_and!; [auto| | |done].
    + apply Hmle. by apply list_elem_of_fmap_2.
    + apply Hnle. by apply list_elem_of_fmap_2.
Qed.

Lemma resample_data_inv (env : Env) (data resampled : DataFrame) (tf : string) :
  resample_data env data tf = inr resampled →
  (tf = "30m" ∧ resampled = data)
  ∨ (∃ rule, rule_of tf rule
             ∧ resampled = dropna (agg (grid env rule) (resample (grid env rule) data))).
Proof.
  unfold resample_data. repeat case_bool_decide; intros [= <-]; subst.
  - right. exists "1D". split; [by left|done].
  - right. exists "4h". split; [by right|done].
  - by left.
Qed.

(** X7.  Resampling keeps bars well formed: when every input bar has its
    open and its close between its low and its high, so has every bar of
    the resampled frame, whatever the timeframe. *)
Theorem resample_data_well_formed (env : Env) (data resampled : DataFrame)
    (tf : string) :
  resample_data env data tf = inr resampled →
  Forall well_formed data →
  Forall well_formed resampled.
Proof.
  intros [[_ ->]|(rule & _ & ->)]%resample_data_inv Hwf; [done|].
  rewrite Forall_forall in Hwf |- *. intros o Ho.
  apply resampled_row_sources in Ho
    as (_ & _ & _ & _ & (b & Hb & Hh & Hl & Hop) & (b' & Hb' & Hh' & Hl' & Hcl)).
  destruct (Hwf _ Hb) as [? _]. destruct (Hwf _ Hb') as [_ ?].
  unfold well_formed. lia.
Qed.

Lemma resample_data_well_formed_witness :
  let data := [mkBar example_start 10 12 9 11 100;
               mkBar (example_start + 1800) 11 13 10 12 200] in
  let env := example_env (λ _, inr data) in
  resample_data env data "1d" = inr [mkBar example_midnight 10 13 9 12 300]
  ∧ Forall well_formed data
  ∧ Forall well_formed [mkBar example_midnight 10 13 9 12 300].
Proof.
  intros data env.
  assert (H1 : resample_data env data "1d" = inr [mkBar example_midnight 10 13 9 12 300])
    by (vm_compute; reflexivity).
  assert (H2 : Forall well_formed data).
  { repeat constructor; simpl; lia. }
  split; [exact H1|]. split; [exact H2|].
  exact (resample_data_well_formed env data _ "1d" H1 H2).
Defined.

(** ** Resampling: conserved quantities *)

Lemma sum_over_add {A} (f h : A → Z) (l : list A) :
  sum_over (λ x, f x + h x) l = sum_over f l + sum_over h l.
Proof. induction l as [|x l IH]; [done|]. unfold sum_over in *. simpl. lia. Qed.

Lemma sum_over_ext {A} (f h : A → Z) (l : list A) :
  (∀ x, f x = h x) → sum_over f l = sum_over h l.
Proof.
  intros Hfh. induction l as [|x l IH]; [done|].
  unfold sum_over in *. simpl. by rewrite Hfh, IH.
Qed.

Lemma sum_over_cons {A} (f : A → Z) (x : A) (l : list A) :
  sum_over f (x :: l) = f x + sum_over f l.
Proof. done. Qed.

Lemma sum_over_zero {A} (l : list A) : sum_over (λ _, 0) l = 0.
Proof. induction l as [|x l IH]; [done|]. unfold sum_over in *. simpl. lia. Qed.

(** A value counted at one key of a duplicate-free list is counted once. *)
Lemma sum_over_at (x v : Z) (ks : list Z) :
  NoDup ks → x ∈ ks →
  sum_over (λ k, if decide (x = k) then v else 0) ks = v.
Proof.
  induction 1 as [|k ks Hk Hnd IH]; intros Hx; [by apply elem_of_nil in Hx|].
  unfold sum_over in *. simpl. case_decide as Hxk.
  - subst k. assert (Hrest : foldr (λ k total, (if decide (x = k) then v else 0) + total) 0 ks = 0).
    { clear IH Hnd Hx. induction ks as [|k ks IH]; [done|]. simpl.
      rewrite decide_False by (intros ->; apply Hk; by left).
      rewrite IH; [done|]. intros Hin. apply Hk. by right. }
    lia.
  - apply elem_of_cons in Hx as [->|Hx]; [done|]. rewrite IH by done. lia.
Qed.

Section Conservation.
Variable g : Grid.

Lemma bucket_cons (b : Bar) (data : DataFrame) (k : Z) :
  bucket g (b :: data) k
  = if decide (bin_of g (Timestamp b) = k) then b :: bucket g data k
    else bucket g data k.
Proof. unfold bucket. by rewrite filter_cons. Qed.

Lemma sum_over_buckets (data : DataFrame) (ks : list Z) :
  NoDup ks →
  (∀ b, b ∈ data → bin_of g (Timestamp b) ∈ ks) →
  sum_over (λ k, total_volume (bucket g data k)) ks = total_volume data.
Proof.
  intros Hnd. induction data as [|b data IH]; intros Hcov.
  { apply sum_over_zero. }
  rewrite (sum_over_ext _
             (λ k, (if decide (bin_of g (Timestamp b) = k) then Volume b else 0)
                   + total_volume (bucket g data k))).
  - rewrite sum_over_add, sum_over_at, IH; [done| |done|].
    + intros b' Hb'. apply Hcov. by right.
    + apply Hcov. by left.
  - intros k. rewrite bucket_cons. case_decide; simpl; lia.
Qed.

Lemma total_volume_rows (data : DataFrame) (ks : list Z) :
  total_volume (omap (λ k, notna (agg_row g (k, bucket g data k))) ks)
  = sum_over (λ k, wrap64 (total_volume (bucket g data k))) ks.
Proof.
  induction ks as [|k ks IH]; [done|].
  cbn [omap list_omap]. rewrite sum_over_cons.
  destruct (notna (agg_row g (k, bucket g data k))) as [o|] eqn:Ho.
  - apply notna_agg_row_cells in Ho as (_ & _ & _ & _ & _ & _ & Hv).
    change (Volume o + total_volume (omap (λ k, notna (agg_row g (k, bucket g data k))) ks)
            = wrap64 (total_volume (bucket g data k))
              + sum_over (λ k, wrap64 (total_volume (bucket g data k))) ks).
    by rewrite IH, Hv.
  - destruct (bucket g data k) as [|b bars] eqn:Hb.
    + rewrite IH. done.
    + destruct (notna_agg_row_nonempty g k (b :: bars)) as (o & Ho' & _); [done|].
      congruence.
Qed.

Lemma sum_over_wrap64 {A} (f : A → Z) (l : list A) :
  ∃ q, sum_over (λ x, wrap64 (f x)) l = sum_over f l + q * 2 ^ 64.
Proof.
  induction l as [|x l [q IH]].
  - by exists 0.
  - destruct (wrap64_congruent (f x)) as [q' Hq'].
    exists (q' + q). rewrite !sum_over_cons, IH, Hq'. lia.
Qed.

(** With no negative volume, a bucket holds no more than the frame. *)
Lemma total_volume_bucket (data : DataFrame) (k : Z) :
  Forall (λ b, 0 ≤ Volume b) data →
  0 ≤ total_volume (bucket g data k) ≤ total_volume data.
Proof.
  induction 1 as [|b data Hb Hdata IH]; [done|].
  rewrite bucket_cons. change (total_volume (b :: data))
    with (Volume b + total_volume data).
  case_decide.
  - change (total_volume (b :: bucket g data k))
      with (Volume b + total_volume (bucket g data k)). lia.
  - lia.
Qed.

(** The volumes of the resampled rows add up to those of the input, up to
    the wrap-around of the sums. *)
Lemma resampled_total_volume (data : DataFrame) :
  (∀ t t', t ≤ t' → bin_of g t ≤ bin_of g t') →
  ∃ q, total_volume (dropna (agg g (resample g data)))
       = total_volume data + q * 2 ^ 64.
Proof.
  intros Hmono. rewrite dropna_agg_resample, total_volume_rows.
  destruct (sum_over_wrap64 (λ k, total_volume (bucket g data k))
              (bin_range g data)) as [q ->].
  exists q. f_equal.
  apply sum_over_buckets; [apply bin_range_NoDup|].
  intros b Hb. by apply bin_range_covers.
Qed.

(** They add up to exactly those of the input when no volume is negative
    and the total is one an [int64] holds. *)
Lemma resampled_total_volume_exact (data : DataFrame) :
  (∀ t t', t ≤ t' → bin_of g t ≤ bin_of g t') →
  Forall (λ b, 0 ≤ Volume b) data → total_volume data < 2 ^ 63 →
  total_volume (dropna (agg g (resample g data))) = total_volume data.
Proof.
  intros Hmono Hpos Hfit. rewrite dropna_agg_resample, total_volume_rows.
  rewrite (sum_over_ext _ (λ k, total_volume (bucket g data k))).
  - apply sum_over_buckets; [apply bin_range_NoDup|].
    intros b Hb. by apply bin_range_covers.
  - intros k. pose proof (total_volume_bucket data k Hpos).
    apply wrap64_small. lia.
Qed.

Lemma resampled_row_of (data : DataFrame) (b : Bar) :
  (∀ t t', t ≤ t' → bin_of g t ≤ bin_of g t') →
  b ∈ data →
  ∃ o, o ∈ dropna (agg g (resample g data))
       ∧ High b ≤ High o ∧ Low o ≤ Low b.
Proof.
  intros Hmono Hb. set (k := bin_of g (Timestamp b)).
  assert (Hin : b ∈ bucket g data k) by (apply elem_of_bucket; done).
  destruct (notna_agg_row_nonempty g k (bucket g data k)) as (o & Ho & _).
  { intros Hnil. rewrite Hnil in Hin. by apply elem_of_nil in Hin. }
  exists o. split.
  - rewrite dropna_agg_resample. apply list_elem_of_omap. exists k.
    split; [by apply bin_range_covers|done].
  - apply notna_agg_row_cells in Ho as (Hne & _ & _ & Hhi & Hlo & _).
    destruct (agg_max_spec (High <$> bucket g data k)) as (m & Hm & _ & Hmle).
    { by destruct (bucket g data k). }
    destruct (agg_min_spec (Low <$> bucket g data k)) as (n & Hn & _ & Hnle).
    { by destruct (bucket g data k). }
    rewrite Hhi in Hm. injection Hm as <-. rewrite Hlo in Hn. injection Hn as <-.
    split; [apply Hmle | apply Hnle]; by apply list_elem_of_fmap_2.
Qed.

Lemma resampled_envelope (data : DataFrame) :
  (∀ t t', t ≤ t' → bin_of g t ≤ bin_of g t') →
  agg_max (High <$> dropna (agg g (resample g data))) = agg_max (High <$> data)
  ∧ agg_min (Low <$> dropna (agg g (resample g data))) = agg_min (Low <$> data).
Proof.
  intros Hmono. destruct data as [|b0 data]; [done|].
  set (d := b0 :: data) in *.
  destruct (agg_max_spec (High <$> d)) as (m & Hm & Hmin & Hmle); [done|].
  destruct (agg_min_spec (Low <$> d)) as (n & Hn & Hnin & Hnle); [done|].
  rewrite Hm, Hn. split.
  - apply list_elem_of_fmap in Hmin as (b & -> & Hb).
    destruct (resampled_row_of d b Hmono Hb) as (o & Ho & Hhi & _).
    assert (Hup : ∀ o', o' ∈ dropna (agg g (resample g d)) → High o' ≤ High b).
    { intros o' Ho'. apply resampled_row_sources in Ho' as (_ & (b' & Hb' & ->) & _).
      apply Hmle. by apply list_elem_of_fmap_2. }
    apply agg_max_unique.
    + apply list_elem_of_fmap. exists o. split; [|done]. specialize (Hup o Ho). lia.
    + intros y (o' & -> & Ho')%list_elem_of_fmap. by apply Hup.
  - apply list_elem_of_fmap in Hnin as (b & -> & Hb).
    destruct (resampled_row_of d b Hmono Hb) as (o & Ho & _ & Hlo).
    assert (Hdown : ∀ o', o' ∈ dropna (agg g (resample g d)) → Low b ≤ Low o').
    { intros o' Ho'. apply resampled_row_sources in Ho' as (_ & _ & (b' & Hb' & ->) & _).
      apply Hnle. by apply list_elem_of_fmap_2. }
    apply agg_min_unique.
    + apply list_elem_of_fmap. exists o. split; [|done]. specialize (Hdown o Ho). lia.
    + intros y (o' & -> & Ho')%list_elem_of_fmap. by apply Hdown.
Qed.

End Conservation.

(** X8.  Resampling conserves the traded volume as far as the [int64]
    sums allow: over a monotone grid the volumes of the resampled frame
    add up to those of the input up to a multiple of [2^64], and to
    exactly those of the input when no volume is negative and their total
    is below [2^63], whatever the timeframe. *)
Theorem resample_data_total_volume (env : Env) (data resampled : DataFrame)
    (tf : string) :
  (∀ rule, grid_ok (grid env rule)) →
  resample_data env data tf = inr resampled →
  (∃ q, total_volume resampled = total_volume data + q * 2 ^ 64)
  ∧ (Forall (λ b, 0 ≤ Volume b) data → total_volume data < 2 ^ 63 →
     total_volume resampled = total_volume data).
Proof.
  intros Hgrid [[_ ->]|(rule & _ & ->)]%resample_data_inv.
  { split; [exists 0; lia|done]. }
  split.
  - apply resampled_total_volume, Hgrid.
  - intros Hpos Hfit. by apply resampled_total_volume_exact; [apply Hgrid| |].
Qed.

Lemma resample_data_total_volume_witness :
  let data := [mkBar example_start 10 12 9 11 100;
               mkBar (example_start + 1800) 11 13 10 12 200;
               mkBar example_end 12 14 11 13 50] in
  let env := example_env (λ _, inr data) in
  (∀ rule, grid_ok (grid env rule))
  ∧ Forall (λ b, 0 ≤ Volume b) data
  ∧ total_volume data = 350
  ∧ ∃ resampled, resample_data env data "4h" = inr resampled
                 ∧ length resampled = 2%nat
                 ∧ (∃ q, total_volume resampled = total_volume data + q * 2 ^ 64)
                 ∧ total_volume resampled = 350.
Proof.
  intros data env.
  assert (H1 : ∀ rule, grid_ok (grid env rule)).
  { intros rule. apply anchored_grid_ok. simpl. case_bool_decide; lia. }
  assert (H2 : Forall (λ b, 0 ≤ Volume b) data).
  { repeat constructor; simpl; lia. }
  assert (H3 : total_volume data = 350) by reflexivity.
  split; [exact H1|]. split; [exact H2|]. split; [exact H3|].
  eexists. split; [reflexivity|]. split; [vm_compute; reflexivity|].
  pose proof (resample_data_total_volume env data _ "4h" H1 eq_refl) as [Hq Hexact].
  split; [exact Hq|]. rewrite <- H3. apply Hexact; [exact H2|]. rewrite H3. lia.
Defined.

(** X9.  Resampling keeps the envelope: over a monotone grid the largest
    high and the smallest low of the resampled frame are those of the
    input, so [extended_high] and [extended_low] are the same at every
    timeframe. *)
Theorem resample_data_envelope (env : Env) (data resampled : DataFrame)
    (tf : string) :
  (∀ rule, grid_ok (grid env rule)) →
  resample_data env data tf = inr resampled →
  agg_max (High <$> resampled) = agg_max (High <$> data)
  ∧ agg_min (Low <$> resampled) = agg_min (Low <$> data).
Proof.
  intros Hgrid [[_ ->]|(rule & _ & ->)]%resample_data_inv; [done|].
  apply resampled_envelope, Hgrid.
Qed.

Lemma resample_data_envelope_witness :
  let data := [mkBar example_start 10 12 9 11 100;
               mkBar (example_start + 1800) 11 13 10 12 200;
               mkBar example_end 12 14 11 13 50] in
  let env := example_env (λ _, inr data) in
  (∀ rule, grid_ok (grid env rule))
  ∧ ∃ resampled, resample_data env data "4h" = inr resampled
                 ∧ agg_max (High <$> resampled) = Some 14
                 ∧ agg_min (Low <$> resampled) = Some 9.
Proof.
  intros data env.
  assert (H1 : ∀ rule, grid_ok (grid env rule)).
  { intros rule. apply anchored_grid_ok. simpl. case_bool_decide; lia. }
  split; [exact H1|].
  eexists. split; [reflexivity|].
  destruct (resample_data_envelope env data _ "4h" H1 eq_refl) as [Hh Hl].
  split; [exact Hh | exact Hl].
Defined.

(** ** Levels and figure of one symbol *)




Lemma order_map_order_of (tf : string) : default 3 (order_map !! tf) = order_of tf.
Proof.
  unfold order_map, order_of.
  destruct (decide (tf = "1d")) as [->|]; [by rewrite lookup_insert_eq|].
  rewrite lookup_insert_ne, (bool_decide_eq_false_2 (tf = "1d")) by done.
  destruct (decide (tf = "4h")) as [->|]; [by rewrite lookup_insert_eq|].
  rewrite lookup_insert_ne, (bool_decide_eq_false_2 (tf = "4h")) by done.
  destruct (decide (tf = "30m")) as [->|]; [by rewrite lookup_insert_eq|].
  rewrite lookup_insert_ne by done. by rewrite lookup_empty.
Qed.

Lemma resample_data_inr_recognized (env : Env) (data resampled : DataFrame)
    (tf : string) :
  resample_data env data tf = inr resampled → recognized tf.
Proof.
  intros Hr. destruct (decide (recognized tf)) as [|Hn]; [done|].
  by rewrite resample_data_unrecognized in Hr.
Qed.

Section Recorded.
Variable env : Env.
Variable extended_data : DataFrame.

(** What the dictionary of [generate_chart_for_symbol] holds after the
    loop: for each timeframe of the list, the levels of that timeframe. *)
Lemma levels_loop_lookup (tfs : list string)
    (acc levels : gmap string (list Z * list Z)) :
  levels_loop env extended_data tfs acc = inr levels →
  Forall recognized tfs
  ∧ (∀ tf, tf ∈ tfs →
       ∃ v, levels !! tf = Some v ∧ levels_of env extended_data tf = inr v)
  ∧ (∀ tf, tf ∉ tfs → levels !! tf = acc !! tf).
Proof.
  revert acc. induction tfs as [|tf tfs IH]; intros acc Hloop.
  { injection Hloop as <-. split; [constructor|]. split; [|done].
    intros tf Htf. by apply elem_of_nil in Htf. }
  simpl in Hloop.
  destruct (resample_data env extended_data tf) as [e|resampled] eqn:Hr; [done|].
  simpl in Hloop. fold (order_of tf) in Hloop.
  destruct (find_support_resistance resampled (order_of tf)) as [e|[s r]] eqn:Hf; [done|].
  simpl in Hloop. destruct (IH _ Hloop) as (Hall & Hin & Hout).
  assert (Hof : levels_of env extended_data tf = inr (s, r)).
  { unfold levels_of. by rewrite Hr. }
  split; [constructor; [by eapply resample_data_inr_recognized|done]|]. split.
  - intros tf' Htf'. destruct (decide (tf' ∈ tfs)) as [Hin'|Hnin]; [by apply Hin|].
    apply elem_of_cons in Htf' as [->|]; [|done].
    exists (s, r). split; [|done]. by rewrite Hout, lookup_insert_eq.
  - intros tf' Hnin. apply not_elem_of_cons in Hnin as [Hne Hnin].
    by rewrite Hout, lookup_insert_ne.
Qed.

Lemma draw_levels_inr (tf color : string) (dashed : bool) (levels : list Z)
    (lines : list Line) :
  color_of tf = inr color →
  draw_levels tf dashed levels lines
  = inr (lines ++ ((λ y, mkLine y color dashed) <$> levels)).
Proof.
  intros Hc. revert lines. induction levels as [|level levels IH]; intros lines; simpl.
  { by rewrite app_nil_r. }
  rewrite Hc. simpl. rewrite IH. by rewrite <- app_assoc.
Qed.

Lemma color_of_recognized (tf : string) :
  recognized tf → ∃ color, color_map !! tf = Some color ∧ color_of tf = inr color.
Proof. intros [-> | [-> | ->]]%recognized_cases; by eexists. Qed.

(** The loop of [plot_extended_chart] draws, for each timeframe of the
    list in turn, the lines of that timeframe's levels. *)
Lemma plot_loop_lines (tfs : list string) (lines lines' : list Line)
    (levels : gmap string (list Z * list Z)) :
  (∀ tf, tf ∈ tfs →
     ∃ v, levels !! tf = Some v ∧ levels_of env extended_data tf = inr v) →
  plot_loop env extended_data tfs lines = inr lines' →
  lines' = lines ++ (tfs ≫= λ tf, lines_of tf (default ([], []) (levels !! tf))).
Proof.
  revert lines. induction tfs as [|tf tfs IH]; intros lines Hlv Hplot.
  { injection Hplot as <-. by rewrite app_nil_r. }
  simpl in Hplot. destruct (Hlv tf ltac:(by left)) as ([s r] & Hlook & Hof).
  unfold levels_of in Hof.
  destruct (resample_data env extended_data tf) as [e|resampled] eqn:Hr; [done|].
  simpl in Hplot, Hof. rewrite order_map_order_of, Hof in Hplot. simpl in Hplot.
  destruct (color_of_recognized tf) as (color & Hcm & Hc).
  { by eapply resample_data_inr_recognized. }
  rewrite (draw_levels_inr tf color false s lines Hc) in Hplot. simpl in Hplot.
  rewrite (draw_levels_inr tf color true r _ Hc) in Hplot. simpl in Hplot.
  apply IH in Hplot; [|intros tf' Htf'; apply Hlv; by right].
  rewrite Hplot. rewrite bind_cons. unfold lines_of at 2. rewrite Hlook, Hcm. simpl.
  by rewrite <- !app_assoc.
Qed.

End Recorded.

(** Where a saved chart comes from. *)
Lemma attempt_saved_inv (env : Env) (cfg : Config) (symbol d d' : string)
    (levels : gmap string (list Z * list Z)) (fig : Figure) :
  ChartSaved d' levels fig ∈ attempt env cfg symbol d [] →
  d' = d
  ∧ ∃ extended_data extended_start extended_end,
      get_extended_data env symbol
      = inr (extended_data, extended_start, extended_end)
      ∧ extended_data ≠ []
      ∧ levels_loop env extended_data (TIMEFRAMES cfg) ∅ = inr levels
      ∧ plot_extended_chart env cfg extended_data
          (agg_max (High <$> extended_data)) (agg_min (Low <$> extended_data))
        = inr fig.
Proof.
  unfold attempt, generate_chart_for_symbol.
  destruct (get_extended_data env symbol) as [e|[[extended_data s] e]].
  { intros Hin. apply list_elem_of_singleton in Hin. done. }
  destruct extended_data as [|b data].
  { intros Hin. apply list_elem_of_singleton in Hin. done. }
  destruct (levels_loop env (b :: data) (TIMEFRAMES cfg) ∅) as [e'|levels'] eqn:Hl; simpl.
  { intros Hin. apply list_elem_of_singleton in Hin. done. }
  destruct (plot_extended_chart env cfg (b :: data) _ _) as [e'|fig'] eqn:Hp; simpl.
  { intros Hin. apply list_elem_of_singleton in Hin. done. }
  intros Hin. apply list_elem_of_singleton in Hin. injection Hin as -> -> ->.
  split; [done|]. eexists _, _, _. split_and!; done.
Qed.

Lemma generate_charts_events (env : Env) (cfg : Config) (ev : Event) :
  ev ∈ generate_charts env cfg [] →
  ∃ symbol d,
    (symbol ∈ FUTURES cfg ∧ d = futures_display symbol
     ∨ symbol ∈ STOCKS cfg ∧ d = symbol)
    ∧ ev ∈ attempt env cfg symbol d [].
Proof.
  unfold generate_charts. rewrite !for_symbols_events, app_nil_l.
  intros [Hin|Hin]%elem_of_app;
    apply list_elem_of_In, in_concat in Hin as (evs & Hevs & Hev);
    apply list_elem_of_In in Hevs, Hev;
    apply list_elem_of_fmap in Hevs as (symbol & -> & Hs);
    eexists symbol, _; (split; [|exact Hev]); [left|right]; done.
Qed.

(** ** What a run leaves behind *)

(** X10.  Every chart a run saves was made with recognised timeframes
    only, and its figure shows exactly the recorded levels: for each
    configured timeframe in turn, the supports of that timeframe as solid
    lines and then its resistances as dashed lines, in the timeframe's
    colour.  The orders used when recording and when drawing agree. *)
Theorem saved_chart_draws_recorded_levels (env : Env) (cfg : Config) (d : string)
    (levels : gmap string (list Z * list Z)) (fig : Figure) :
  ChartSaved d levels fig ∈ generate_charts env cfg [] →
  Forall recognized (TIMEFRAMES cfg)
  ∧ (∀ tf, default 3 (order_map !! tf) = order_of tf)
  ∧ level_lines fig
    = (TIMEFRAMES cfg ≫= λ tf, lines_of tf (default ([], []) (levels !! tf))).
Proof.
  intros (symbol & d0 & _ & Hin)%generate_charts_events.
  apply attempt_saved_inv in Hin as (_ & ext & s & e & _ & _ & Hl & Hp).
  destruct (levels_loop_lookup env ext _ _ _ Hl) as (Hall & Hin & _).
  split; [done|]. split; [apply order_map_order_of|].
  unfold plot_extended_chart in Hp.
  destruct (plot_loop env ext (TIMEFRAMES cfg) []) as [e'|lines] eqn:Hplot; [done|].
  simpl in Hp. injection Hp as <-. simpl.
  by apply (plot_loop_lines env ext _ [] lines levels Hin).
Qed.

Lemma saved_chart_draws_recorded_levels_witness :
  let data := frame_of_closes [5; 3; 5; 2; 5; 4; 6] in
  let frame := (λ b, mkBar (example_start + 1800 * Timestamp b)
                           (Open b) (High b) (Low b) (Close b) (Volume b)) <$> data in
  let env := example_env (λ _, inr frame) in
  let cfg := mkConfig [] ["AAPL"] ["30m"] in
  ∃ levels fig,
    ChartSaved "AAPL" levels fig ∈ generate_charts env cfg []
    ∧ levels !! "30m" = Some ([2], [])
    ∧ level_lines fig = [mkLine 2 "orange" false].
Proof.
  intros data frame env cfg.
  assert (∃ levels fig, generate_charts env cfg [] = [ChartSaved "AAPL" levels fig]
                        ∧ levels !! "30m" = Some ([2], []))
    as (levels & fig & Hrun & Hlook).
  { vm_compute. eexists _, _. split; reflexivity. }
  assert (Hin : ChartSaved "AAPL" levels fig ∈ generate_charts env cfg []).
  { rewrite Hrun. apply list_elem_of_singleton. reflexivity. }
  exists levels, fig. split; [exact Hin|]. split; [exact Hlook|].
  destruct (saved_chart_draws_recorded_levels env cfg "AAPL" levels fig Hin) as (_ & _ & Hlines).
  rewrite Hlines. simpl. rewrite Hlook. reflexivity.
Defined.







Lemma attempt_event_symbol (env : Env) (cfg : Config) (symbol d : string) :
  event_symbol <$> attempt env cfg symbol d [] = [d].
Proof.
  unfold attempt, generate_chart_for_symbol.
  destruct (get_extended_data env symbol) as [e|[[extended_data s] e]]; [done|].
  destruct extended_data as [|b data]; [done|].
  destruct (levels_loop env (b :: data) (TIMEFRAMES cfg) ∅) as [e'|levels]; simpl; [done|].
  by destruct (plot_extended_chart env cfg (b :: data) _ _) as [e'|fig].
Qed.

Lemma for_symbols_event_symbols (env : Env) (cfg : Config) (display : string → string)
    (symbols : list string) :
  event_symbol <$> concat ((λ symbol, attempt env cfg symbol (display symbol) [])
                             <$> symbols)
  = display <$> symbols.
Proof.
  induction symbols as [|symbol symbols IH]; [done|].
  rewrite !fmap_cons. simpl. rewrite fmap_app, IH, attempt_event_symbol. done.
Qed.

(** X14.  A run leaves exactly one event per configured symbol, in the
    order of [FUTURES] and then [STOCKS]; a future is shown as ['ES'] when
    it is ['ES=F'] and as ['NQ'] otherwise, whatever its symbol, and a
    stock under its own symbol. *)
Theorem generate_charts_event_symbols (env : Env) (cfg : Config) (w : World) :
  event_symbol <$> generate_charts env cfg w
  = (event_symbol <$> w) ++ (futures_display <$> FUTURES cfg) ++ STOCKS cfg
  ∧ (∀ symbol, symbol ≠ "ES=F" → futures_display symbol = "NQ").
Proof.
  split.
  - unfold generate_charts. rewrite !for_symbols_events, !fmap_app.
    rewrite !for_symbols_event_symbols, <- app_assoc. by rewrite list_fmap_id.
  - intros symbol Hne. unfold futures_display. by rewrite bool_decide_eq_false_2.
Qed.

Lemma generate_charts_event_symbols_witness :
  let cfg := mkConfig ["ES=F"; "NQ=F"; "YM=F"] ["AAPL"] ["30m"] in
  let env := example_env (λ _, inr []) in
  "YM=F" ≠ "ES=F"
  ∧ futures_display "YM=F" = "NQ"
  ∧ event_symbol <$> generate_charts env cfg [] = ["ES"; "NQ"; "NQ"; "AAPL"].
Proof.
  intros cfg env.
  assert (H1 : "YM=F" ≠ "ES=F") by discriminate.
  destruct (generate_charts_event_symbols env cfg []) as [Hrun Hnq].
  split; [exact H1|]. split; [exact (Hnq "YM=F" H1)|].
  rewrite Hrun. reflexivity.
Defined.

(** ** The daily timeframe *)

Lemma length_omap_le {A B} (f : A → option B) (l : list A) :
  (length (omap f l) ≤ length l)%nat.
Proof.
  induction l as [|x l IH]; [done|]. cbn [omap list_omap].
  destruct (f x); simpl; lia.
Qed.

Lemma anchored_grid_daily (anchor : Z) : daily (anchored_grid anchor 86400).
Proof.
  intros t t' Hle Hspan. simpl.
  transitivity ((t - anchor + 86400) `div` 86400).
  - apply Z.div_le_mono; lia.
  - replace (t - anchor + 86400) with (t - anchor + 1 * 86400) by lia.
    rewrite Z.div_add by lia. lia.
Qed.

(** A frame whose rows are at most sixteen hours apart resamples to at
    most two daily rows. *)
Lemma daily_rows_at_most_two (g : Grid) (data : DataFrame) :
  (∀ t t', t ≤ t' → bin_of g t ≤ bin_of g t') → daily g →
  (∀ b b', b ∈ data → b' ∈ data → Timestamp b' - Timestamp b ≤ 16 * 3600) →
  (length (dropna (agg g (resample g data))) ≤ 2)%nat.
Proof.
  intros Hmono Hdaily Hspan. rewrite dropna_agg_resample.
  etransitivity; [apply length_omap_le|].
  unfold bin_range. destruct (Timestamp <$> data) as [|t ts] eqn:Hts; [simpl; lia|].
  destruct (foldl_min_spec t ts) as [Hmin Hminle].
  destruct (foldl_max_spec t ts) as [Hmax Hmaxle].
  cbv zeta. rewrite length_seqZ.
  specialize (Hminle _ Hmax).
  rewrite <- Hts in Hmin, Hmax.
  apply list_elem_of_fmap in Hmin as (b & Hb & Hbin).
  apply list_elem_of_fmap in Hmax as (b' & Hb' & Hbin').
  specialize (Hspan b b' Hbin Hbin'). rewrite <- Hb, <- Hb' in Hspan.
  specialize (Hdaily _ _ Hminle Hspan). specialize (Hmono _ _ Hminle). lia.
Qed.

(** X15.  The daily timeframe never reaches [argrelextrema]: the window is
    shorter than two days, so over a grid of days the extended data
    resample to one or two daily rows, fewer than the three rows that
    [order = 1] needs.  In every saved chart the ['1d'] support and the
    ['1d'] resistance are therefore the same single price, the close of
    the first daily row. *)
Theorem daily_levels_fall_back (env : Env) (cfg : Config) (d : string)
    (levels : gmap string (list Z * list Z)) (fig : Figure) :
  us_eastern_offsets (eastern env) →
  grid_ok (grid env "1D") → daily (grid env "1D") →
  "1d" ∈ TIMEFRAMES cfg →
  ChartSaved d levels fig ∈ generate_charts env cfg [] →
  ∃ symbol extended_data extended_start extended_end first rest,
    get_extended_data env symbol = inr (extended_data, extended_start, extended_end)
    ∧ resample_data env extended_data "1d" = inr (first :: rest)
    ∧ (length rest ≤ 1)%nat
    ∧ levels !! "1d" = Some ([Close first], [Close first]).
Proof.
  intros Hoff [Hmono _] Hdaily Htf (symbol & d0 & _ & Hin)%generate_charts_events.
  apply attempt_saved_inv in Hin as (_ & ext & s & e & Hg & Hne & Hl & _).
  exists symbol, ext, s, e.
  destruct (levels_loop_lookup env ext _ _ _ Hl) as (_ & Hlook & _).
  destruct (Hlook "1d" Htf) as (v & Hv & Hof).
  set (g := grid env "1D") in *.
  assert (Hr : resample_data env ext "1d" = inr (dropna (agg g (resample g ext))))
    by reflexivity.
  assert (Hspan : ∀ b b', b ∈ ext → b' ∈ ext → Timestamp b' - Timestamp b ≤ 16 * 3600).
  { apply get_extended_data_inv in Hg as (data & Hd & Hp & ->).
    intros b b' Hb Hb'.
    rewrite window_filter_filter in Hb, Hb'.
    apply list_elem_of_filter in Hb as [Hb _]. apply list_elem_of_filter in Hb' as [Hb' _].
    destruct (window_span_bounds (eastern env) (clock env symbol) Hoff)
      as (s' & e' & Hp' & Hs & _).
    rewrite Hp in Hp'. injection Hp' as <- <-. lia. }
  pose proof (daily_rows_at_most_two g ext Hmono Hdaily Hspan) as Htwo.
  destruct (dropna (agg g (resample g ext))) as [|first rest] eqn:Hrows.
  { destruct ext as [|b ext]; [done|].
    destruct (resampled_row_of g (b :: ext) b Hmono ltac:(by left)) as (o & Ho & _).
    rewrite Hrows in Ho. by apply elem_of_nil in Ho. }
  exists first, rest. split; [done|]. split; [done|]. split; [simpl in Htwo; lia|].
  rewrite Hv. f_equal. unfold levels_of in Hof. rewrite Hr in Hof.
  change (find_support_resistance (first :: rest) (order_of "1d") = inr v) in Hof.
  rewrite (find_support_resistance_short _ _ first) in Hof; [congruence|done|].
  unfold len. simpl in *. change (order_of "1d") with 1. lia.
Qed.

Lemma daily_levels_fall_back_witness :
  let data := frame_of_closes [5; 3; 5; 2; 5; 4; 6] in
  let frame := (λ b, mkBar (example_start + 1800 * Timestamp b)
                           (Open b) (High b) (Low b) (Close b) (Volume b)) <$> data in
  let env := example_env (λ _, inr frame) in
  let cfg := mkConfig [] ["AAPL"] ["1d"; "4h"; "30m"] in
  us_eastern_offsets (eastern env)
  ∧ grid_ok (grid env "1D") ∧ daily (grid env "1D")
  ∧ "1d" ∈ TIMEFRAMES cfg
  ∧ ∃ levels fig,
      ChartSaved "AAPL" levels fig ∈ generate_charts env cfg []
      ∧ levels !! "1d" = Some ([6], [6]).
Proof.
  intros data frame env cfg.
  assert (H1 : us_eastern_offsets (eastern env)) by exact eastern_2025_offsets.
  assert (H2 : grid_ok (grid env "1D")) by (apply anchored_grid_ok; reflexivity).
  assert (H3 : daily (grid env "1D")) by exact (anchored_grid_daily example_midnight).
  assert (H4 : "1d" ∈ TIMEFRAMES cfg) by (left; reflexivity).
  split; [exact H1|]. split; [exact H2|]. split; [exact H3|]. split; [exact H4|].
  assert (∃ levels fig, generate_charts env cfg [] = [ChartSaved "AAPL" levels fig]
                        ∧ levels !! "1d" = Some ([6], [6]))
    as (levels & fig & Hrun & Hlook).
  { vm_compute. eexists _, _. split; reflexivity. }
  assert (Hin : ChartSaved "AAPL" levels fig ∈ generate_charts env cfg []).
  { rewrite Hrun. apply list_elem_of_singleton. reflexivity. }
  exists levels, fig. split; [exact Hin|].
  destruct (daily_levels_fall_back env cfg "AAPL" levels fig H1 H2 H3 H4 Hin)
    as (symbol & ext & s & e & first & rest & _ & _ & _ & Hfirst).
  rewrite Hfirst. rewrite Hfirst in Hlook. exact Hlook.
Defined.

(** ** Column normalisation *)

Lemma expected_facts :
  NoDup expected
  ∧ ("Adj Close" ∉ expected)
  ∧ Forall (λ col, (lower col ∉ expected) ∧ lower col ≠ "Adj Close") expected
  ∧ Forall (λ col, Forall (λ col', lower col = lower col' → col = col') expected)
           expected.
Proof.
  split_and!.
  - refine (bool_decide_unpack _ _). by vm_compute.
  - refine (bool_decide_unpack _ _). by vm_compute.
  - refine (bool_decide_unpack _ _). by vm_compute.
  - refine (bool_decide_unpack _ _). by vm_compute.
Qed.

Lemma lower_not_expected (col : string) : col ∈ expected → lower col ∉ expected.
Proof.
  destruct expected_facts as (_ & _ & H & _). rewrite Forall_forall in H.
  intros Hc. by destruct (H col Hc).
Qed.

Lemma lower_not_adj_close (col : string) : col ∈ expected → lower col ≠ "Adj Close".
Proof.
  destruct expected_facts as (_ & _ & H & _). rewrite Forall_forall in H.
  intros Hc. by destruct (H col Hc).
Qed.

Lemma lower_inj_expected (col col' : string) :
  col ∈ expected → col' ∈ expected → lower col = lower col' → col = col'.
Proof.
  destruct expected_facts as (_ & _ & _ & H). rewrite Forall_forall in H.
  intros Hc Hc'. specialize (H col Hc). rewrite Forall_forall in H. by apply H.
Qed.

Lemma adj_close_not_expected : "Adj Close" ∉ expected.
Proof. apply expected_facts. Qed.

Lemma lookup_rename (old new : string) (columns : list string) (i : nat) :
  rename old new columns !! i
  = (λ c, if bool_decide (c = old) then new else c) <$> columns !! i.
Proof. unfold rename. by rewrite list_lookup_fmap. Qed.

Lemma elem_of_rename (old new y : string) (columns : list string) :
  y ∈ rename old new columns
  ↔ (y = new ∧ old ∈ columns) ∨ (y ≠ old ∧ y ∈ columns).
Proof.
  unfold rename. rewrite list_elem_of_fmap. split.
  - intros (c & -> & Hc). case_bool_decide; subst; [by left|by right].
  - intros [[-> Hold]|[Hne Hy]].
    + exists old. by rewrite bool_decide_eq_true_2.
    + exists y. by rewrite bool_decide_eq_false_2.
Qed.

(** What one pass of the loop body does: nothing, or one renaming of a
    stand-in to the missing name. *)
Lemma fix_column_cases (columns : list string) (col : string) :
  fix_column columns col = columns
  ∨ ((col ∉ columns)
     ∧ (∃ x, x ∈ columns
             ∧ (x = lower col ∨ (x = "Adj Close" ∧ col = "Close"))
             ∧ fix_column columns col = rename x col columns)).
Proof.
  unfold fix_column. case_bool_decide as Hin; [by left|].
  case_bool_decide as Hlow.
  { right. split; [done|]. exists (lower col). auto. }
  destruct (bool_decide (col = "Close")) eqn:Hc; [|by left].
  apply bool_decide_eq_true in Hc. simpl.
  case_bool_decide as Hadj; [|by left].
  right. split; [done|]. exists "Adj Close". subst col. auto.
Qed.

Lemma fix_column_settled_id (columns : list string) (col : string) :
  settled columns col → fix_column columns col = columns.
Proof.
  intros [Hin|[Hlow Hadj]]; unfold fix_column.
  - by rewrite bool_decide_eq_true_2.
  - case_bool_decide; [done|]. rewrite (bool_decide_eq_false_2 (lower col ∈ columns)) by done.
    case_bool_decide as Hc; [|done]. simpl.
    by rewrite bool_decide_eq_false_2 by auto.
Qed.

Lemma fix_column_settles (columns : list string) (col : string) :
  settled (fix_column columns col) col.
Proof.
  unfold fix_column. case_bool_decide as Hin; [by left|].
  case_bool_decide as Hlow.
  { left. apply elem_of_rename. by left. }
  destruct (bool_decide (col = "Close")) eqn:Hc; simpl.
  - apply bool_decide_eq_true in Hc. case_bool_decide as Hadj.
    + left. subst col. apply elem_of_rename. by left.
    + right. auto.
  - apply bool_decide_eq_false in Hc. right. split; [done|]. by intros ?.
Qed.

Lemma fix_column_keeps_expected (columns : list string) (col col' : string) :
  col ∈ expected → col' ∈ expected →
  col' ∈ columns → col' ∈ fix_column columns col.
Proof.
  intros Hc Hc' Hin.
  destruct (fix_column_cases columns col) as [->|(_ & x & Hx & Hcase & ->)]; [done|].
  apply elem_of_rename. right. split; [|done]. intros ->.
  destruct Hcase as [->|[-> _]].
  - by apply (lower_not_expected col).
  - by apply adj_close_not_expected.
Qed.

Lemma fix_column_keeps_settled (columns : list string) (col col' : string) :
  col ∈ expected → col' ∈ expected →
  settled columns col' → settled (fix_column columns col) col'.
Proof.
  intros Hc Hc' [Hin|[Hlow Hadj]]; [left; by apply fix_column_keeps_expected|].
  destruct (fix_column_cases columns col) as [->|(_ & x & Hx & Hcase & ->)];
    [by right|].
  right. split.
  - intros [[Heq _]|[_ ?]]%elem_of_rename; [|done].
    apply (lower_not_expected col' Hc'). by rewrite Heq.
  - intros Hclose [[Heq _]|[_ ?]]%elem_of_rename; [|by apply Hadj].
    apply adj_close_not_expected. by rewrite Heq.
Qed.

Lemma fix_column_keeps_stands_for (columns : list string) (col col' : string) :
  col ∈ expected → col' ∈ expected →
  stands_for columns col' → stands_for (fix_column columns col) col'.
Proof.
  intros Hc Hc' Hst.
  destruct (fix_column_cases columns col) as [->|(Hnin & x & Hx & Hcase & Heq)]; [done|].
  rewrite Heq. destruct Hst as [Hin|[Hlow|[-> Hadj]]].
  - left. rewrite <- Heq. by apply fix_column_keeps_expected.
  - destruct (decide (lower col' = x)) as [<-|Hne].
    + left. apply elem_of_rename. left. split; [|done].
      destruct Hcase as [Hl|[Hl _]].
      * symmetry. by apply lower_inj_expected.
      * by destruct (lower_not_adj_close col' Hc').
    + right. left. apply elem_of_rename. by right.
  - destruct (decide ("Adj Close" = x)) as [<-|Hne].
    + left. apply elem_of_rename. left. split; [|done].
      destruct Hcase as [Hl|[_ ->]]; [|done].
      by destruct (lower_not_adj_close col Hc).
    + right. right. split; [done|]. apply elem_of_rename. by right.
Qed.

Lemma size_rename (old new : string) (columns : list string) :
  old ∈ columns → new ∉ columns →
  size (list_to_set (rename old new columns) : gset string)
  = size (list_to_set columns : gset string).
Proof.
  intros Hold Hnew.
  assert (Hset : (list_to_set (rename old new columns) : gset string)
                 = {[new]} ∪ (list_to_set columns ∖ {[old]})).
  { apply set_eq. intros y. rewrite elem_of_list_to_set, elem_of_rename.
    rewrite elem_of_union, elem_of_singleton, elem_of_difference,
      elem_of_list_to_set, elem_of_singleton. naive_solver. }
  assert (Hold' : (list_to_set columns : gset string)
                  = {[old]} ∪ (list_to_set columns ∖ {[old]})).
  { apply set_eq. intros y.
    rewrite elem_of_union, elem_of_singleton, elem_of_difference,
      elem_of_list_to_set, elem_of_singleton.
    destruct (decide (y = old)); naive_solver. }
  assert (H1 : size ({[new]} ∪ (list_to_set columns ∖ {[old]}) : gset string)
               = S (size (list_to_set columns ∖ {[old]} : gset string))).
  { rewrite size_union, size_singleton; [done|]. set_solver. }
  assert (H2 : size ({[old]} ∪ (list_to_set columns ∖ {[old]}) : gset string)
               = S (size (list_to_set columns ∖ {[old]} : gset string))).
  { rewrite size_union, size_singleton; [done|]. set_solver. }
  rewrite Hset, H1, <- H2. by rewrite <- Hold'.
Qed.

Lemma fix_column_size (columns : list string) (col : string) :
  size (list_to_set (fix_column columns col) : gset string)
  = size (list_to_set columns : gset string).
Proof.
  destruct (fix_column_cases columns col) as [->|(Hnin & x & Hx & _ & ->)]; [done|].
  by apply size_rename.
Qed.

Lemma fix_column_length (columns : list string) (col : string) :
  length (fix_column columns col) = length columns.
Proof.
  destruct (fix_column_cases columns col) as [->|(_ & x & _ & _ & ->)]; [done|].
  unfold rename. by rewrite length_fmap.
Qed.

Section Pass.
Variable cols : list string.
Hypothesis cols_expected : ∀ col, col ∈ cols → col ∈ expected.

Lemma pass_invariants (columns : list string) :
  let result := foldl fix_column columns cols in
  length result = length columns
  ∧ size (list_to_set result : gset string) = size (list_to_set columns : gset string)
  ∧ (∀ col, col ∈ expected → settled columns col ∨ col ∈ cols → settled result col)
  ∧ (∀ col, col ∈ expected → stands_for columns col → stands_for result col).
Proof.
  revert columns cols_expected.
  induction cols as [|col l IH]; intros columns Hexp; simpl.
  { split_and!; try done. intros col _ [?|Hin]; [done|]. by apply elem_of_nil in Hin. }
  destruct (IH (fix_column columns col)) as (Hlen & Hsize & Hset & Hst).
  { intros c Hc. apply Hexp. by right. }
  assert (Hcol : col ∈ expected) by (apply Hexp; by left).
  split_and!.
  - by rewrite Hlen, fix_column_length.
  - by rewrite Hsize, fix_column_size.
  - intros c Hc [Hs|Hin]; apply Hset; try done.
    + left. by apply fix_column_keeps_settled.
    + apply elem_of_cons in Hin as [->|Hin]; [left; apply fix_column_settles|by right].
  - intros c Hc Hs. apply Hst; [done|]. by apply fix_column_keeps_stands_for.
Qed.

End Pass.

Lemma pass_settled_id (cols columns : list string) :
  (∀ col, col ∈ cols → settled columns col) →
  foldl fix_column columns cols = columns.
Proof.
  induction cols as [|col l IH]; intros Hs; [done|]. simpl.
  rewrite fix_column_settled_id by (apply Hs; by left).
  apply IH. intros c Hc. apply Hs. by right.
Qed.

Lemma fix_data_columns_inv (data_columns : Columns) (result : list string) :
  fix_data_columns data_columns = inr result →
  (size (list_to_set (flat_names data_columns) : gset string) = 1%nat
   ∧ length (flat_names data_columns) = 5%nat ∧ result = expected)
  ∨ (size (list_to_set (flat_names data_columns) : gset string) ≠ 1%nat
     ∧ result = foldl fix_column (flat_names data_columns) expected).
Proof.
  unfold fix_data_columns. fold (flat_names data_columns).
  case_bool_decide as Hsize.
  - case_bool_decide as Hlen; [|done]. intros [= <-]. by left.
  - intros [= <-]. by right.
Qed.

(** X16.  Whenever [fix_data_columns] returns, the frame has as many
    columns as before, and a second call changes nothing: the repeated
    call in [get_extended_data] is a no-op. *)
Theorem fix_data_columns_idempotent (data_columns : Columns) (result : list string) :
  fix_data_columns data_columns = inr result →
  length result = length (flat_names data_columns)
  ∧ fix_data_columns (Index result) = inr result.
Proof.
  intros [(Hsize & Hlen & ->)|(Hsize & ->)]%fix_data_columns_inv.
  { split; [by rewrite Hlen|]. by vm_compute. }
  destruct (pass_invariants expected (λ _ H, H) (flat_names data_columns))
    as (Hlen & Hsz & Hset & _).
  split; [done|].
  unfold fix_data_columns. rewrite bool_decide_eq_false_2 by (by rewrite Hsz).
  f_equal. apply pass_settled_id. intros col Hcol. apply Hset; [done|by right].
Qed.

Lemma fix_data_columns_idempotent_witness :
  fix_data_columns (Index ["open"; "High"; "low"; "Adj Close"; "volume"; "Dividends"])
  = inr ["Open"; "High"; "Low"; "Close"; "Volume"; "Dividends"]
  ∧ fix_data_columns (Index ["Open"; "High"; "Low"; "Close"; "Volume"; "Dividends"])
    = inr ["Open"; "High"; "Low"; "Close"; "Volume"; "Dividends"].
Proof.
  assert (H1 : fix_data_columns
                 (Index ["open"; "High"; "low"; "Adj Close"; "volume"; "Dividends"])
               = inr ["Open"; "High"; "Low"; "Close"; "Volume"; "Dividends"])
    by (vm_compute; reflexivity).
  split; [exact H1|].
  exact (proj2 (fix_data_columns_idempotent _ _ H1)).
Defined.

(** X17.  Whenever [fix_data_columns] returns, every expected name that
    had a stand-in among the names (itself, its lower-case form, or
    ['Adj Close'] for ['Close']) is a column of the result. *)
Theorem fix_data_columns_complete (data_columns : Columns) (result : list string)
    (col : string) :
  fix_data_columns data_columns = inr result →
  col ∈ expected →
  stands_for (flat_names data_columns) col →
  col ∈ result.
Proof.
  intros [(_ & _ & ->)|(_ & ->)]%fix_data_columns_inv Hcol Hst; [done|].
  destruct (pass_invariants expected (λ _ H, H) (flat_names data_columns))
    as (_ & _ & Hset & Hstands).
  specialize (Hset col Hcol (or_intror Hcol)). specialize (Hstands col Hcol Hst).
  destruct Hset as [?|[Hlow Hadj]]; [done|].
  destruct Hstands as [?|[?|[-> ?]]]; [done|done|]. by destruct Hadj.
Qed.

Lemma fix_data_columns_complete_witness :
  fix_data_columns (Index ["open"; "high"; "low"; "Adj Close"; "volume"])
  = inr ["Open"; "High"; "Low"; "Close"; "Volume"]
  ∧ "Close" ∈ expected
  ∧ stands_for ["open"; "high"; "low"; "Adj Close"; "volume"] "Close"
  ∧ "Close" ∈ ["Open"; "High"; "Low"; "Close"; "Volume"].
Proof.
  assert (H1 : fix_data_columns (Index ["open"; "high"; "low"; "Adj Close"; "volume"])
               = inr ["Open"; "High"; "Low"; "Close"; "Volume"])
    by (vm_compute; reflexivity).
  assert (H2 : "Close" ∈ expected) by (refine (bool_decide_unpack _ _); vm_compute; exact I).
  assert (H3 : stands_for ["open"; "high"; "low"; "Adj Close"; "volume"] "Close").
  { right. right. split; [reflexivity|]. refine (bool_decide_unpack _ _). vm_compute. exact I. }
  split; [exact H1|]. split; [exact H2|]. split; [exact H3|].
  exact (fix_data_columns_complete _ _ "Close" H1 H2 H3).
Defined.

(** X18.  When all names are identical, as the second level of a
    single-ticker [MultiIndex] is, [fix_data_columns] overrides them by
    position: a frame of five columns gets the five expected names in
    their fixed order, whatever the columns were called, and a frame of
    any other width makes the assignment raise [ValueError]. *)
Theorem fix_data_columns_single_name (data_columns : Columns) (name : string) :
  flat_names data_columns ≠ [] →
  (∀ c, c ∈ flat_names data_columns → c = name) →
  fix_data_columns data_columns
  = if bool_decide (length (flat_names data_columns) = 5%nat) then inr expected
    else inl (ValueError "Length mismatch").
Proof.
  intros Hne Hall. unfold fix_data_columns. fold (flat_names data_columns).
  assert (Hset : (list_to_set (flat_names data_columns) : gset string) = {[name]}).
  { apply set_eq. intros y. rewrite elem_of_list_to_set, elem_of_singleton. split.
    - apply Hall.
    - intros ->. destruct (flat_names data_columns) as [|c l]; [done|].
      rewrite <- (Hall c) by (by left). by left. }
  rewrite Hset, size_singleton, bool_decide_eq_true_2 by done. done.
Qed.

(** A single-ticker download whose first level is in alphabetical order:
    the column of closes ends up under ['Open'].  A lone column cannot be
    renamed at all. *)
Lemma fix_data_columns_single_name_witness :
  let labels := [("Close", "AAPL", []); ("High", "AAPL", []); ("Low", "AAPL", []);
                 ("Open", "AAPL", []); ("Volume", "AAPL", [])] in
  flat_names (MultiIndex labels) ≠ []
  ∧ (∀ c, c ∈ flat_names (MultiIndex labels) → c = "AAPL")
  ∧ fix_data_columns (MultiIndex labels)
    = inr ["Open"; "High"; "Low"; "Close"; "Volume"]
  ∧ fix_data_columns (Index ["Close"]) = inl (ValueError "Length mismatch").
Proof.
  intros labels.
  assert (H1 : flat_names (MultiIndex labels) ≠ []) by discriminate.
  assert (H2 : ∀ c, c ∈ flat_names (MultiIndex labels) → c = "AAPL").
  { intros c Hc. simpl in Hc. repeat (apply elem_of_cons in Hc as [->|Hc]; [reflexivity|]).
    by apply elem_of_nil in Hc. }
  assert (H3 : flat_names (Index ["Close"]) ≠ []) by discriminate.
  assert (H4 : ∀ c, c ∈ flat_names (Index ["Close"]) → c = "Close").
  { intros c Hc. simpl in Hc. apply elem_of_cons in Hc as [->|Hc]; [reflexivity|].
    by apply elem_of_nil in Hc. }
  split; [exact H1|]. split; [exact H2|]. split.
  - exact (fix_data_columns_single_name (MultiIndex labels) "AAPL" H1 H2).
  - exact (fix_data_columns_single_name (Index ["Close"]) "Close" H3 H4).
Defined.

Lemma size_two_names (names : list string) (a b : string) :
  a ∈ names → b ∈ names → a ≠ b →
  size (list_to_set names : gset string) ≠ 1%nat.
Proof.
  intros Ha Hb Hab Hsize. apply size_1_elem_of in Hsize as (z & Hz).
  assert (Hin : ∀ c, c ∈ names → c = z).
  { intros c Hc. apply (elem_of_list_to_set (C := gset string)) in Hc.
    rewrite Hz in Hc. by apply elem_of_singleton in Hc. }
  rewrite (Hin a Ha), (Hin b Hb) in Hab. done.
Qed.

(** X19.  A frame that already has the five expected names is left as it
    is, extra columns included. *)
Theorem fix_data_columns_canonical (data_columns : Columns) :
  (∀ col, col ∈ expected → col ∈ flat_names data_columns) →
  fix_data_columns data_columns = inr (flat_names data_columns).
Proof.
  intros Hall. unfold fix_data_columns. fold (flat_names data_columns).
  rewrite bool_decide_eq_false_2.
  - f_equal. apply pass_settled_id. intros col Hcol. left. by apply Hall.
  - apply (size_two_names _ "Open" "High"); [apply Hall|apply Hall|done];
      refine (bool_decide_unpack _ _); by vm_compute.
Qed.

Lemma fix_data_columns_canonical_witness :
  let names := ["Open"; "High"; "Low"; "Close"; "Adj Close"; "Volume"; "close"] in
  (∀ col, col ∈ expected → col ∈ flat_names (Index names))
  ∧ fix_data_columns (Index names) = inr names.
Proof.
  intros names.
  assert (H1 : ∀ col, col ∈ expected → col ∈ flat_names (Index names)).
  { intros col Hc. unfold expected in Hc.
    repeat (apply elem_of_cons in Hc as [->|Hc];
            [refine (bool_decide_unpack _ _); vm_compute; exact I|]).
    by apply elem_of_nil in Hc. }
  split; [exact H1|].
  exact (fix_data_columns_canonical (Index names) H1).
Defined.

Lemma fix_column_pointwise (names columns : list string) (col : string) :
  col ∈ expected →
  (∀ i x, names !! i = Some x → kept_or_restored x (columns !! i)) →
  ∀ i x, names !! i = Some x → kept_or_restored x (fix_column columns col !! i).
Proof.
  intros Hcol Hinv i x Hx. specialize (Hinv i x Hx).
  destruct (fix_column_cases columns col) as [->|(_ & y & Hy & Hcase & ->)]; [done|].
  assert (Hyexp : y ∉ expected).
  { destruct Hcase as [->|[-> _]];
      [by apply lower_not_expected | apply adj_close_not_expected]. }
  rewrite lookup_rename.
  destruct Hinv as [Hkept|(col0 & Hcol0 & Hnow & Hfrom)].
  - rewrite Hkept. simpl. case_bool_decide as Hxy; [|by left].
    right. exists col. split; [done|]. split; [done|].
    subst y. destruct Hcase as [?|[? ?]]; auto.
  - rewrite Hnow. simpl. rewrite bool_decide_eq_false_2 by (intros ->; done).
    right. exists col0. auto.
Qed.

Lemma pass_pointwise (names cols columns : list string) :
  (∀ col, col ∈ cols → col ∈ expected) →
  (∀ i x, names !! i = Some x → kept_or_restored x (columns !! i)) →
  ∀ i x, names !! i = Some x →
         kept_or_restored x (foldl fix_column columns cols !! i).
Proof.
  revert columns. induction cols as [|col l IH]; intros columns Hexp Hinv; [done|].
  simpl. apply IH.
  - intros c Hc. apply Hexp. by right.
  - apply fix_column_pointwise; [apply Hexp; by left|done].
Qed.

(** X20.  When the names are not all identical, [fix_data_columns] returns
    and works column by column: each column keeps its position, and either
    keeps its name or, having been the lower-case form of an expected name
    (or ['Adj Close']), now carries that expected name (or ['Close']).  No
    other column is ever renamed. *)
Theorem fix_data_columns_pointwise (data_columns : Columns) (a b : string) :
  a ∈ flat_names data_columns → b ∈ flat_names data_columns → a ≠ b →
  ∃ result,
    fix_data_columns data_columns = inr result
    ∧ length result = length (flat_names data_columns)
    ∧ ∀ i x, flat_names data_columns !! i = Some x →
             kept_or_restored x (result !! i).
Proof.
  intros Ha Hb Hab. eexists. split.
  - unfold fix_data_columns. fold (flat_names data_columns).
    by rewrite bool_decide_eq_false_2 by (by apply (size_two_names _ a b)).
  - split.
    + by destruct (pass_invariants expected (λ _ H, H) (flat_names data_columns)).
    + apply pass_pointwise; [done|]. intros i x Hx. by left.
Qed.

Lemma fix_data_columns_pointwise_witness :
  let names := ["Date"; "open"; "Adj Close"; "volume"] in
  "Date" ∈ flat_names (Index names) ∧ "open" ∈ flat_names (Index names)
  ∧ "Date" ≠ "open"
  ∧ ∃ result,
      fix_data_columns (Index names) = inr result
      ∧ result = ["Date"; "Open"; "Close"; "Volume"]
      ∧ ∀ i x, flat_names (Index names) !! i = Some x →
               kept_or_restored x (result !! i).
Proof.
  intros names.
  assert (H1 : "Date" ∈ flat_names (Index names)) by (left; reflexivity).
  assert (H2 : "open" ∈ flat_names (Index names)) by (right; left; reflexivity).
  assert (H3 : "Date" ≠ "open") by discriminate.
  split; [exact H1|]. split; [exact H2|]. split; [exact H3|].
  destruct (fix_data_columns_pointwise (Index names) "Date" "open" H1 H2 H3)
    as (result & Hfix & _ & Hpoint).
  exists result. split; [exact Hfix|]. split; [|exact Hpoint].
  vm_compute in Hfix. injection Hfix as <-. reflexivity.
Defined.

(** ** Levels depend on the order of prices only *)

Section Relabel.
Import Extrema.
Variable f : Z → Z.
Variables comparator comparator' : Z → Z → bool.
Hypothesis comparator_f : ∀ x y, comparator' (f x) (f y) = comparator x y.

Lemma take_clip_fmap (a : list Z) (i : Z) :
  a ≠ [] → take_clip (f <$> a) i = f (take_clip a i).
Proof.
  intros Hne. unfold take_clip. rewrite len_fmap.
  rewrite !list_lookup_total_alt, list_lookup_fmap.
  destruct (lookup_lt_is_Some_2 a (Z.to_nat (clip (len a) i))) as [x ->]; [|done].
  destruct a; [done|]. unfold clip, len. simpl length. lia.
Qed.

Lemma zip_with_comparator_fmap (xs ys : list Z) :
  zip_with comparator' (f <$> xs) (f <$> ys) = zip_with comparator xs ys.
Proof.
  revert ys. induction xs as [|x xs IH]; intros [|y ys]; try done.
  rewrite !fmap_cons. simpl. by rewrite comparator_f, IH.
Qed.

Lemma relextrema_loop_fmap (a : list Z) (shifts : list Z) (results : list bool) :
  a ≠ [] →
  relextrema_loop comparator' (f <$> a) (seqZ 0 (len a))
    (take_clip (f <$> a) <$> seqZ 0 (len a)) shifts results
  = relextrema_loop comparator a (seqZ 0 (len a))
      (take_clip a <$> seqZ 0 (len a)) shifts results.
Proof.
  intros Hne. revert results. induction shifts as [|s shifts IH]; intros results; [done|].
  assert (Hstep : relextrema_step comparator' (f <$> a) (seqZ 0 (len a))
                    (take_clip (f <$> a) <$> seqZ 0 (len a)) results s
                  = relextrema_step comparator a (seqZ 0 (len a))
                      (take_clip a <$> seqZ 0 (len a)) results s).
  { unfold relextrema_step.
    assert (Hmap : ∀ (h : Z → Z),
              (λ l, take_clip (f <$> a) (h l)) <$> seqZ 0 (len a)
              = f <$> ((λ l, take_clip a (h l)) <$> seqZ 0 (len a))).
    { intros h. rewrite <- list_fmap_compose. apply list_fmap_ext.
      intros i l _. simpl. by apply take_clip_fmap. }
    assert (Hmain : take_clip (f <$> a) <$> seqZ 0 (len a)
                    = f <$> (take_clip a <$> seqZ 0 (len a))).
    { rewrite <- list_fmap_compose. apply list_fmap_ext.
      intros i l _. simpl. by apply take_clip_fmap. }
    rewrite (Hmap (λ l, l + s)), (Hmap (λ l, l - s)), Hmain.
    by rewrite !zip_with_comparator_fmap. }
  simpl. rewrite Hstep. destruct (negb _); [done|apply IH].
Qed.

Lemma relextrema_loop_nil (c : Z → Z → bool) (a : list Z) (shifts : list Z) :
  relextrema_loop c a [] [] shifts [] = [].
Proof. by destruct shifts. Qed.

Lemma argrelextrema_fmap (a : list Z) (order : Z) :
  argrelextrema (f <$> a) comparator' order = argrelextrema a comparator order.
Proof.
  unfold argrelextrema, boolrelextrema. case_bool_decide; [done|].
  destruct a as [|x a].
  - change (len (f <$> [])) with 0. change (len (@nil Z)) with 0.
    rewrite (seqZ_nil 0 0) by lia. simpl. by rewrite !relextrema_loop_nil.
  - rewrite len_fmap, length_fmap. by rewrite relextrema_loop_fmap.
Qed.

End Relabel.

Lemma Close_map_close (f : Z → Z) (data : DataFrame) :
  Close <$> map_close f data = f <$> (Close <$> data).
Proof. unfold map_close. rewrite <- !list_fmap_compose. done. Qed.

Lemma lookup_total_fmap_Z (f : Z → Z) (a : list Z) (i : Z) :
  0 ≤ i < len a → (f <$> a) !!! Z.to_nat i = f (a !!! Z.to_nat i).
Proof.
  intros Hi. rewrite !list_lookup_total_alt, list_lookup_fmap.
  destruct (lookup_lt_is_Some_2 a (Z.to_nat i)) as [x ->]; [|done].
  unfold len in Hi. lia.
Qed.

Lemma find_support_resistance_relabel (f : Z → Z) (swap : bool)
    (data : DataFrame) (order : Z) :
  (∀ x y, Extrema.np_less (f x) (f y)
          = if swap then Extrema.np_greater x y else Extrema.np_less x y) →
  (∀ x y, Extrema.np_greater (f x) (f y)
          = if swap then Extrema.np_less x y else Extrema.np_greater x y) →
  find_support_resistance (map_close f data) order
  = map_levels f swap (find_support_resistance data order).
Proof.
  intros Hless Hgreater. destruct data as [|b data].
  { by destruct swap. }
  set (d := b :: data).
  assert (Hunfold : ∀ d' : DataFrame, d' ≠ [] →
            find_support_resistance d' order
            = if bool_decide (len (Close <$> d') < order * 2 + 1)
              then inr ([(Close <$> d') !!! 0%nat], [(Close <$> d') !!! 0%nat])
              else
                sidx ← supports_idx (Close <$> d') order;
                ridx ← resistances_idx (Close <$> d') order;
                inr ((λ i, (Close <$> d') !!! Z.to_nat i) <$> sidx,
                     (λ i, (Close <$> d') !!! Z.to_nat i) <$> ridx)).
  { intros [|b' d'] Hne; done. }
  rewrite (Hunfold d) by done. rewrite (Hunfold (map_close f d)) by done.
  rewrite Close_map_close, len_fmap.
  case_bool_decide as Hshort.
  { simpl. by destruct swap. }
  destruct (decide (order < 1)) as [Hbad|Hok].
  { unfold supports_idx, resistances_idx, Extrema.argrelextrema.
    rewrite !boolrelextrema_inl by done. done. }
  destruct (argrelextrema_inr Z.lt Extrema.np_less (Close <$> d) order)
    as (sidx & Hs & _ & Hsiff); [apply np_less_spec|lia|lia|].
  destruct (argrelextrema_inr Z.gt Extrema.np_greater (Close <$> d) order)
    as (ridx & Hr & _ & Hriff); [apply np_greater_spec|lia|lia|].
  assert (Hval : ∀ idx : list Z,
            (∀ i, i ∈ idx → 0 ≤ i < len (Close <$> d)) →
            (λ i, (f <$> (Close <$> d)) !!! Z.to_nat i) <$> idx
            = f <$> ((λ i, (Close <$> d) !!! Z.to_nat i) <$> idx)).
  { intros idx Hrange.
    rewrite <- (list_fmap_compose (λ i, (Close <$> d) !!! Z.to_nat i) f idx).
    apply list_fmap_ext.
    intros n i Hi. unfold compose. cbv beta.
    apply (lookup_total_fmap_Z f (Close <$> d) i), Hrange.
    by eapply list_elem_of_lookup_2. }
  assert (Hsr : ∀ i, i ∈ sidx → 0 ≤ i < len (Close <$> d)).
  { intros i [Hi _]%Hsiff. lia. }
  assert (Hrr : ∀ i, i ∈ ridx → 0 ≤ i < len (Close <$> d)).
  { intros i [Hi _]%Hriff. lia. }
  unfold supports_idx, resistances_idx in *. destruct swap.
  - rewrite (argrelextrema_fmap f Extrema.np_greater Extrema.np_less) by apply Hless.
    rewrite (argrelextrema_fmap f Extrema.np_less Extrema.np_greater) by apply Hgreater.
    rewrite Hs, Hr. simpl. by rewrite !Hval.
  - rewrite (argrelextrema_fmap f Extrema.np_less Extrema.np_less) by apply Hless.
    rewrite (argrelextrema_fmap f Extrema.np_greater Extrema.np_greater) by apply Hgreater.
    rewrite Hs, Hr. simpl. by rewrite !Hval.
Qed.

(** X21.  Only the order of the closes matters: replacing every close by
    its image under a strictly increasing map (a change of currency or of
    tick size) replaces every level by its image, and nothing else
    changes, errors included. *)
Theorem find_support_resistance_increasing (f : Z → Z) (data : DataFrame) (order : Z) :
  (∀ x y, x < y ↔ f x < f y) →
  find_support_resistance (map_close f data) order
  = map_levels f false (find_support_resistance data order).
Proof.
  intros Hf. apply find_support_resistance_relabel; intros x y;
    unfold Extrema.np_less, Extrema.np_greater; apply bool_decide_ext;
    pose proof (Hf x y); pose proof (Hf y x); lia.
Qed.

Lemma find_support_resistance_increasing_witness :
  (∀ x y, x < y ↔ 100 * x + 7 < 100 * y + 7)
  ∧ find_support_resistance
      (map_close (λ x, 100 * x + 7) (frame_of_closes [5; 3; 5; 2; 5])) 1
    = inr ([307; 207], [507]).
Proof.
  assert (H1 : ∀ x y, x < y ↔ 100 * x + 7 < 100 * y + 7) by (intros x y; lia).
  split; [exact H1|].
  exact (find_support_resistance_increasing (λ x, 100 * x + 7)
           (frame_of_closes [5; 3; 5; 2; 5]) 1 H1).
Defined.

(** X22.  Supports and resistances mirror each other: under a strictly
    decreasing map of the closes (turning the chart upside down) the
    supports become the images of the resistances and the resistances the
    images of the supports. *)
Theorem find_support_resistance_decreasing (f : Z → Z) (data : DataFrame) (order : Z) :
  (∀ x y, x < y ↔ f y < f x) →
  find_support_resistance (map_close f data) order
  = map_levels f true (find_support_resistance data order).
Proof.
  intros Hf. apply find_support_resistance_relabel; intros x y;
    unfold Extrema.np_less, Extrema.np_greater; apply bool_decide_ext;
    pose proof (Hf x y); pose proof (Hf y x); lia.
Qed.

Lemma find_support_resistance_decreasing_witness :
  (∀ x y, x < y ↔ - y < - x)
  ∧ find_support_resistance (map_close Z.opp (frame_of_closes [5; 3; 5; 2; 5])) 1
    = inr ([-5], [-3; -2]).
Proof.
  assert (H1 : ∀ x y, x < y ↔ - y < - x) by (intros x y; lia).
  split; [exact H1|].
  exact (find_support_resistance_decreasing Z.opp (frame_of_closes [5; 3; 5; 2; 5]) 1 H1).
Defined.

(** ** Successive windows *)

(** X23.  The windows of two different dates never overlap: for
    US/Eastern the window of an earlier date ends at least eight hours
    before the window of a later date starts, so no row is kept by the
    window filter of both. *)
Theorem extended_periods_disjoint (eastern : TimeZone) (now now' : DateTime)
    (data : DataFrame) :
  us_eastern_offsets eastern →
  date now < date now' →
  ∃ s e s' e',
    get_extended_period eastern now = (s, e)
    ∧ get_extended_period eastern now' = (s', e')
    ∧ instant e + 8 * 3600 ≤ instant s'
    ∧ ∀ b, b ∈ window_filter data s e → b ∉ window_filter data s' e'.
Proof.
  intros Hoff Hlt. eexists _, _, _, _. split; [done|]. split; [done|].
  assert (Hgap : instant (localize eastern (combine (date now) 9 0)) + 8 * 3600
                 ≤ instant (localize eastern (combine (date now' - 1) 18 0))).
  { unfold instant, localize, combine; simpl.
    pose proof (Hoff (date now * 86400 + 9 * 3600 + 0 * 60)).
    pose proof (Hoff ((date now' - 1) * 86400 + 18 * 3600 + 0 * 60)). lia. }
  split; [exact Hgap|].
  intros b Hb Hb'. rewrite window_filter_filter in Hb, Hb'.
  apply list_elem_of_filter in Hb as [Hb _]. apply list_elem_of_filter in Hb' as [Hb' _].
  lia.
Qed.

Lemma extended_periods_disjoint_witness :
  let now := mkDateTime (combine 20156 8 0) (-14400) in
  let now' := mkDateTime (combine 20157 8 0) (-14400) in
  us_eastern_offsets eastern_2025
  ∧ date now < date now'
  ∧ ∃ s e s' e',
      get_extended_period eastern_2025 now = (s, e)
      ∧ get_extended_period eastern_2025 now' = (s', e')
      ∧ instant s' - instant e = 9 * 3600.
Proof.
  intros now now'.
  assert (H1 : date now < date now') by (vm_compute; reflexivity).
  split; [exact eastern_2025_offsets|]. split; [exact H1|].
  destruct (extended_periods_disjoint eastern_2025 now now' [] eastern_2025_offsets H1)
    as (s & e & s' & e' & Hp & Hp' & _).
  exists s, e, s', e'. split; [exact Hp|]. split; [exact Hp'|].
  injection Hp as <- <-. injection Hp' as <- <-. reflexivity.
Defined.

(** ** Resampling twice *)

Section Twice.
Variable g : Grid.

Lemma bucket_none (rows : DataFrame) (k : Z) :
  (∀ o, o ∈ rows → bin_of g (Timestamp o) ≠ k) → bucket g rows k = [].
Proof.
  induction rows as [|o rows IH]; intros Hno; [done|].
  rewrite bucket_cons, decide_False by (apply Hno; by left).
  apply IH. intros o' Ho'. apply Hno. by right.
Qed.

Lemma omap_agg_nil (ks : list Z) :
  omap (λ k, notna (agg_row g (k, bucket g [] k))) ks = [].
Proof. induction ks as [|k ks IH]; [done|]. cbn [omap list_omap]. by rewrite IH. Qed.

Lemma omap_agg_tail (o : Bar) (rest : DataFrame) (ks : list Z) :
  (∀ k, k ∈ ks → bin_of g (Timestamp o) ≠ k) →
  omap (λ k, notna (agg_row g (k, bucket g (o :: rest) k))) ks
  = omap (λ k, notna (agg_row g (k, bucket g rest k))) ks.
Proof.
  intros Hks. apply list_omap_ext, Forall_Forall2_diag, Forall_forall.
  intros k Hk. rewrite bucket_cons. by rewrite decide_False by by apply Hks.
Qed.

Lemma notna_agg_row_single (k : Z) (o : Bar) :
  Timestamp o = left_edge g k → - 2 ^ 63 ≤ Volume o < 2 ^ 63 →
  notna (agg_row g (k, [o])) = Some o.
Proof.
  intros Hts Hvol. destruct o as [t op hi lo cl vol]. simpl in *. subst t.
  unfold notna, agg_row, agg_sum. simpl.
  by rewrite Z.add_0_r, wrap64_small.
Qed.

Lemma tidy_omap (m : nat) (a : Z) (rows : DataFrame) :
  tidy g rows →
  (∀ o, o ∈ rows → a ≤ bin_of g (Timestamp o) < a + Z.of_nat m) →
  omap (λ k, notna (agg_row g (k, bucket g rows k))) (seqZ a (Z.of_nat m)) = rows.
Proof.
  revert a rows. induction m as [|m IH]; intros a rows Htidy Hcov.
  { destruct rows as [|o rows]; [done|]. specialize (Hcov o ltac:(by left)). lia. }
  destruct rows as [|o rest]; [apply omap_agg_nil|].
  pose proof Htidy as (Hlab & Hsorted & Hvol).
  rewrite fmap_cons in Hsorted. apply StronglySorted_inv in Hsorted as [Hsorted Hall].
  rewrite Forall_fmap, Forall_forall in Hall.
  assert (Hrest : tidy g rest).
  { split_and!; [|done|]; intros o' Ho'; [apply Hlab|apply Hvol]; by right. }
  rewrite seqZ_cons by lia. cbn [omap list_omap].
  replace (Z.pred (Z.of_nat (S m))) with (Z.of_nat m) by lia.
  pose proof (Hcov o ltac:(by left)) as Ho.
  destruct (decide (bin_of g (Timestamp o) = a)) as [Heq|Hne].
  - assert (Hbucket : bucket g (o :: rest) a = [o]).
    { rewrite bucket_cons, decide_True by done. f_equal.
      apply bucket_none.
      intros o' Ho'. specialize (Hall o' Ho'). simpl in Hall. lia. }
    rewrite Hbucket, notna_agg_row_single
      by (first [rewrite <- Heq; apply Hlab|apply Hvol]; by left).
    f_equal. rewrite omap_agg_tail.
    + apply IH; [done|]. intros o' Ho'. specialize (Hall o' Ho'). simpl in Hall.
      specialize (Hcov o' ltac:(by right)). lia.
    + intros k Hk%elem_of_seqZ. lia.
  - assert (Hbucket : bucket g (o :: rest) a = []).
    { rewrite bucket_cons, decide_False by done.
      apply bucket_none.
      intros o' Ho'. specialize (Hall o' Ho'). simpl in Hall. lia. }
    rewrite Hbucket, notna_agg_row_empty.
    apply IH; [done|]. intros o' Ho'. apply elem_of_cons in Ho' as [->|Ho'].
    + lia.
    + specialize (Hall o' Ho'). simpl in Hall. specialize (Hcov o' ltac:(by right)). lia.
Qed.

Lemma tidy_resample (rows : DataFrame) :
  (∀ t t', t ≤ t' → bin_of g t ≤ bin_of g t') →
  tidy g rows → dropna (agg g (resample g rows)) = rows.
Proof.
  intros Hmono Htidy. rewrite dropna_agg_resample.
  assert (Hcov : ∀ o, o ∈ rows → bin_of g (Timestamp o) ∈ bin_range g rows).
  { intros o Ho. by apply bin_range_covers. }
  unfold bin_range in *. destruct (Timestamp <$> rows) as [|t ts] eqn:Hts.
  { by destruct rows. }
  cbv zeta in *.
  set (lo := bin_of g (foldl Z.min t ts)) in *.
  set (hi := bin_of g (foldl Z.max t ts)) in *.
  destruct rows as [|o rows]; [done|].
  pose proof (Hcov o ltac:(by left)) as Ho. apply elem_of_seqZ in Ho.
  replace (hi - lo + 1) with (Z.of_nat (Z.to_nat (hi - lo + 1))) by lia.
  apply tidy_omap; [done|]. intros o' Ho'.
  specialize (Hcov o' Ho'). apply elem_of_seqZ in Hcov. lia.
Qed.

Lemma resampled_tidy (data : DataFrame) :
  labels_in_bins g → tidy g (dropna (agg g (resample g data))).
Proof.
  intros Hlabels. split_and!.
  - intros o (k & _ & Ho)%resampled_row_inv.
    apply notna_agg_row_cells in Ho as (_ & -> & _). by rewrite Hlabels.
  - assert (Hid : ∀ ks : list Z, bin_of g <$> (left_edge g <$> ks) = ks).
    { intros ks. induction ks as [|k ks IH]; [done|].
      rewrite !fmap_cons. by rewrite Hlabels, IH. }
    rewrite (list_fmap_compose Timestamp (bin_of g)).
    rewrite dropna_agg_resample, dropna_agg_index, Hid.
    eapply sublist_StronglySorted; [apply sublist_filter|apply bin_range_ascending].
  - intros o (k & _ & Ho)%resampled_row_inv.
    apply notna_agg_row_cells in Ho as (_ & _ & _ & _ & _ & _ & ->).
    apply wrap64_range.
Qed.

End Twice.

(** X24.  Resampling is idempotent: over a monotone grid whose labels lie
    in the bins they name, resampling an already resampled frame to the
    same timeframe gives that frame back. *)
Theorem resample_data_idempotent (env : Env) (data resampled : DataFrame)
    (tf : string) :
  (∀ rule, grid_ok (grid env rule) ∧ labels_in_bins (grid env rule)) →
  resample_data env data tf = inr resampled →
  resample_data env resampled tf = inr resampled.
Proof.
  intros Hgrid Hr. pose proof Hr as [[-> ->]|(rule & Hrule & ->)]%resample_data_inv.
  { done. }
  destruct (Hgrid rule) as [[Hmono _] Hlabels].
  rewrite (resample_data_rule env _ tf rule Hrule). f_equal.
  apply tidy_resample; [done|]. by apply resampled_tidy.
Qed.

Lemma anchored_grid_labels (anchor width : Z) :
  0 < width → labels_in_bins (anchored_grid anchor width).
Proof.
  intros Hw k. simpl. replace (anchor + k * width - anchor) with (k * width) by lia.
  apply Z.div_mul. lia.
Qed.

Lemma resample_data_idempotent_witness :
  let data := [mkBar example_start 10 12 9 11 100;
               mkBar (example_start + 1800) 11 13 10 12 200;
               mkBar example_end 12 14 11 13 50] in
  let env := example_env (λ _, inr data) in
  (∀ rule, grid_ok (grid env rule) ∧ labels_in_bins (grid env rule))
  ∧ ∃ resampled,
      resample_data env data "4h" = inr resampled
      ∧ length resampled = 2%nat
      ∧ resample_data env resampled "4h" = inr resampled.
Proof.
  intros data env.
  assert (H1 : ∀ rule, grid_ok (grid env rule) ∧ labels_in_bins (grid env rule)).
  { intros rule. split; [apply anchored_grid_ok|apply anchored_grid_labels];
      simpl; case_bool_decide; lia. }
  split; [exact H1|].
  eexists. split; [reflexivity|]. split; [vm_compute; reflexivity|].
  exact (resample_data_idempotent env data _ "4h" H1 eq_refl).
Defined.
